(** * SlackConnectBackend: the scheduled delivery engine

    A shallow embedding of [services/scheduler.ts] (class [MessageScheduler]),
    [services/SlackService.ts] (token refresh and message posting), the two
    mongoose models and the [GET /messages/stats] route handler; further
    the other handlers of [routes/messages.ts], the handlers of
    [routes/slack.ts] except [GET /slack/user-info], the two reads of
    [SlackService] ([getUserChannels], [getUserInfo]) and the middleware
    ([authenticateUser], [errorHandler]).  The OAuth routes, the server
    set-up and the connection to the database are not embedded.

    The asynchronous TypeScript methods are embedded as programs over the
    effects they await (collection queries, [save()], the two calls to the
    Slack API) and the clock.  A program is run against a [World] holding the
    two collections and the log of the calls made to Slack, under an [Env]
    that fixes what the clock and the Slack API answer while it runs.  Every
    [await] of the source is one effect, so a program can be run to
    completion on its own ([run]) or advanced from one [await] to the next
    and interleaved with other calls, the way the Node event loop does
    ([step], [run_schedule]).

    Scope of the embedding: the collections are held in memory, so a query
    or a [save()] is never lost (a [save()] can still fail the validation of
    the schema, for a new document as for a loaded one); the clock reads the
    same instant throughout one operation; ids are well-formed ObjectIds;
    strings are held as UTF-8 bytes. *)

From stdpp Require Import base option list gmap sorting strings.
From Stdlib Require Import ZArith.
From Stdlib Require HexadecimalString HexadecimalN.

Local Open Scope string_scope.
Local Open Scope Z_scope.

(** ** Data model *)

(** A JavaScript [Date] is its time value, the number of milliseconds since
    the epoch.  A time value is at most 8.64e15 in magnitude; an integer
    beyond that stands for [Invalid Date], the date whose time value is [NaN].
    [new Date()] and [Date.now()] never give it. *)
Abbreviation Date := Z.

Definition Date_valid (t : Date) : bool :=
  (-8640000000000000 <=? t) && (t <=? 8640000000000000).

(** [a <= now] on dates, where [now] is the value of [new Date()]: the
    comparison is false for [Invalid Date], as every comparison with [NaN]. *)
Definition Date_le (a now : Date) : bool := Date_valid a && (a <=? now).

(** A string is held as the bytes of its UTF-8 encoding.  The [length] of a
    JavaScript string counts UTF-16 code units: one for a character encoded
    in one, two or three bytes, two for a character encoded in four. *)
Definition code_units (byte : Ascii.ascii) : nat :=
  let b := Ascii.N_of_ascii byte in
  if (b <? 128)%N then 1%nat          (* a character of one byte *)
  else if (b <? 192)%N then 0%nat     (* a continuation byte *)
  else if (b <? 240)%N then 1%nat     (* the first of two or three bytes *)
  else 2%nat.                         (* the first of four bytes *)

Fixpoint js_length (s : string) : nat :=
  match s with
  | EmptyString => 0%nat
  | String byte rest => (code_units byte + js_length rest)%nat
  end.

(** The [_id] of a scheduled message (a MongoDB ObjectId). *)
Abbreviation ObjectId := N.

(** [_id.toString()]: the hexadecimal digits of the id, in lower case and
    filled up with zeros to 24 digits. *)
Definition ObjectId_toString (_id : ObjectId) : string :=
  let digits := HexadecimalString.NilEmpty.string_of_uint (N.to_hex_uint _id) in
  Nat.iter (24 - String.length digits) (String.append "0") digits.

(** The number that a string of lower-case hexadecimal digits spells. *)
Definition hex_value (s : string) : option N :=
  N.of_hex_uint <$> HexadecimalString.NilEmpty.uint_of_string s.

(** [status] of the schema: enum ['pending', 'sent', 'failed', 'cancelled']. *)
Inductive Status := Pending | Sent | Failed | Cancelled.

#[global] Instance Status_eq_dec : EqDecision Status.
Proof. solve_decision. Defined.

(** [required: true] on a String path: the validator rejects the empty string. *)
Definition required (s : string) : bool := negb (String.eqb s "").

Module ScheduledMessage.

(** The fields of [scheduledMessageSchema] (models/ScheduledMessage.ts);
    the [_id] is the key under which the document is stored. *)
Record doc := mk {
  userId : string;
  teamId : string;
  channelId : string;
  channelName : string;
  message : string;
  scheduledFor : Date;
  status : Status;
  createdAt : Date;
  updatedAt : Date;
  sentAt : option Date;
  error : option string
}.

Definition set_status (s : Status) (d : doc) : doc :=
  mk (userId d) (teamId d) (channelId d) (channelName d) (message d)
     (scheduledFor d) s (createdAt d) (updatedAt d) (sentAt d) (error d).

Definition set_sentAt (t : Date) (d : doc) : doc :=
  mk (userId d) (teamId d) (channelId d) (channelName d) (message d)
     (scheduledFor d) (status d) (createdAt d) (updatedAt d) (Some t) (error d).

Definition set_error (e : string) (d : doc) : doc :=
  mk (userId d) (teamId d) (channelId d) (channelName d) (message d)
     (scheduledFor d) (status d) (createdAt d) (updatedAt d) (sentAt d) (Some e).

Definition set_updatedAt (t : Date) (d : doc) : doc :=
  mk (userId d) (teamId d) (channelId d) (channelName d) (message d)
     (scheduledFor d) (status d) (createdAt d) t (sentAt d) (error d).

(** [maxlength: 4000, // Slack's message limit] *)
Definition maxlength : nat := 4000.

(** Schema validation of a document, as run by [save()]: the required
    paths, the length of [message] and the cast of [scheduledFor].  [status]
    is of the enum by its type, and [createdAt], [updatedAt] and [sentAt] only
    ever hold a value of [new Date()]. *)
Definition validate (d : doc) : bool :=
  required (userId d) && required (teamId d) && required (channelId d)
  && required (channelName d) && required (message d)
  && (js_length (message d) <=? maxlength)%nat
  && Date_valid (scheduledFor d).

(** [scheduledMessageSchema.pre('save', ...)]: [this.updatedAt = new Date()]. *)
Definition pre_save (now : Date) (d : doc) : doc := set_updatedAt now d.

End ScheduledMessage.

Module SlackUser.

(** The fields of [slackUserSchema] (models/SlackUser.ts); the [id] path
    ([unique: true]) is the key under which the document is stored. *)
Record doc := mk {
  name : string;
  email : option string;
  teamId : string;
  teamName : string;
  accessToken : string;
  refreshToken : option string;
  tokenExpiresAt : option Date;
  createdAt : Date;
  updatedAt : Date
}.

Definition set_accessToken (t : string) (u : doc) : doc :=
  mk (name u) (email u) (teamId u) (teamName u) t
     (refreshToken u) (tokenExpiresAt u) (createdAt u) (updatedAt u).

Definition set_refreshToken (t : string) (u : doc) : doc :=
  mk (name u) (email u) (teamId u) (teamName u) (accessToken u)
     (Some t) (tokenExpiresAt u) (createdAt u) (updatedAt u).

Definition set_tokenExpiresAt (t : Date) (u : doc) : doc :=
  mk (name u) (email u) (teamId u) (teamName u) (accessToken u)
     (refreshToken u) (Some t) (createdAt u) (updatedAt u).

Definition set_updatedAt (t : Date) (u : doc) : doc :=
  mk (name u) (email u) (teamId u) (teamName u) (accessToken u)
     (refreshToken u) (tokenExpiresAt u) (createdAt u) t.

(** Schema validation of the document stored under [id], as run by
    [save()]: the required paths and the cast of [tokenExpiresAt].
    [createdAt] and [updatedAt] only ever hold a value of [new Date()]. *)
Definition validate (id : string) (u : doc) : bool :=
  required id && required (name u) && required (teamId u) && required (teamName u)
  && required (accessToken u)
  && from_option Date_valid true (tokenExpiresAt u).

(** [slackUserSchema.pre('save', ...)]: [this.updatedAt = new Date()]. *)
Definition pre_save (now : Date) (u : doc) : doc := set_updatedAt now u.

End SlackUser.

(** ** The Slack API as seen by the service *)

(** Outcome of an awaited HTTP call: the promise rejects or resolves. *)
Inductive HttpResult (A : Type) :=
| Rejected (reason : string)
| Resolved (data : A).
Arguments Rejected {A} reason.
Arguments Resolved {A} data.

(** The answer of [oauth.v2.access] to a refresh.  Of the interface
    [SlackRefreshResponse] ([types]) the fields the service reads: [ok],
    [access_token], [refresh_token?] and [expires_in?]; and [error], which the
    service reads from the answer although the interface does not declare it. *)
Record SlackRefreshResponse := {
  ok : bool;
  error : option string;
  access_token : string;
  refresh_token : option string;
  expires_in : option Z
}.

(** The calls that leave the process, in the order they were answered. *)
Inductive Call :=
| CallOAuthAccess (refresh_token : string)
| CallChatPostMessage (token channel text : string).

#[global] Instance Call_eq_dec : EqDecision Call.
Proof. solve_decision. Defined.

Definition is_post (c : Call) : bool :=
  match c with CallChatPostMessage _ _ _ => true | CallOAuthAccess _ => false end.

(** Number of [chat.postMessage] calls in a log. *)
Definition posts (l : list Call) : nat := length (List.filter is_post l).

(** ** Programs over awaited effects *)

Abbreviation Message := ScheduledMessage.doc.
Abbreviation User := SlackUser.doc.

(** [sort({ scheduledFor: 1 })] and [sort({ scheduledFor: -1 })]. *)
Inductive SortOrder := Ascending | Descending.

(** Result of a [save()]: rejected with an error message, or done. *)
Definition SaveResult := HttpResult unit.

Inductive Eff : Type → Type :=
| NewDate : Eff Date
    (* new Date(), Date.now() *)
| NewObjectId : Eff ObjectId
    (* the _id that new ScheduledMessageModel({...}) gives the document:
       an ObjectId that no stored document has *)
| MsgFindById (_id : ObjectId) : Eff (option Message)
    (* ScheduledMessageModel.findById(_id) *)
| MsgFindOne (_id : ObjectId) (query : Message → bool) : Eff (option Message)
    (* ScheduledMessageModel.findOne({ _id, ...query }) *)
| MsgFind (query : Message → bool) (order : SortOrder)
    : Eff (list (ObjectId * Message))
    (* ScheduledMessageModel.find(query).sort({ scheduledFor: order }) *)
| MsgInsert (_id : ObjectId) (d : Message) : Eff SaveResult
    (* save() of a document made with new *)
| MsgUpdate (_id : ObjectId) (d : Message) : Eff SaveResult
    (* save() of a document that was loaded from the collection *)
| UserFindOne (id : string) : Eff (option User)
    (* SlackUserModel.findOne({ id }) *)
| UserUpdate (id : string) (u : User) : Eff SaveResult
    (* save() of a loaded user *)
| AxiosPostRefresh (refresh_token : string) : Eff (HttpResult SlackRefreshResponse)
    (* axios.post('https://slack.com/api/oauth.v2.access',
                  { ..., refresh_token, grant_type: 'refresh_token' }) *)
| ChatPostMessage (token channel text : string) : Eff (HttpResult (option bool)).
    (* new WebClient(token).chat.postMessage({ channel, text }), giving result.ok *)

(** An async function body: it returns, throws an [Error] with a message,
    or awaits an effect and continues with its answer. *)
Inductive Prog (A : Type) : Type :=
| Ret (a : A)
| Throw (msg : string)
| Vis {X : Type} (e : Eff X) (k : X → Prog A).
Arguments Ret {A} a.
Arguments Throw {A} msg.
Arguments Vis {A X} e k.

Fixpoint bind {A B} (p : Prog A) (f : A → Prog B) : Prog B :=
  match p with
  | Ret a => f a
  | Throw msg => Throw msg
  | Vis e k => Vis e (λ x, bind (k x) f)
  end.

(** [try { p } catch (error) { handler(error.message) }] *)
Fixpoint try_catch {A} (p : Prog A) (handler : string → Prog A) : Prog A :=
  match p with
  | Ret a => Ret a
  | Throw msg => handler msg
  | Vis e k => Vis e (λ x, try_catch (k x) handler)
  end.

(** [await] of an effect that cannot reject. *)
Definition perform {X} (e : Eff X) : Prog X := Vis e Ret.

(** [await] of a promise: a rejection is thrown at the [await]. *)
Definition await {X} (e : Eff (HttpResult X)) : Prog X :=
  Vis e (λ r, match r with Rejected msg => Throw msg | Resolved x => Ret x end).

(** [for (const x of l) { await body(x); }] *)
Fixpoint for_of {X} (l : list X) (body : X → Prog unit) : Prog unit :=
  match l with
  | [] => Ret tt
  | x :: l' => bind (body x) (λ _, for_of l' body)
  end.

#[global] Instance Prog_ret : MRet Prog := @Ret.
#[global] Instance Prog_bind : MBind Prog := λ A B f p, bind p f.

(** ** The world a program runs against *)

Record World := {
  messages : gmap ObjectId Message;   (* the ScheduledMessage collection *)
  users : gmap string User;           (* the SlackUser collection, by id *)
  calls : list Call                   (* calls to the Slack API so far *)
}.

Definition set_messages (m : gmap ObjectId Message) (w : World) : World :=
  {| messages := m; users := users w; calls := calls w |}.
Definition set_users (u : gmap string User) (w : World) : World :=
  {| messages := messages w; users := u; calls := calls w |}.
Definition log_call (c : Call) (w : World) : World :=
  {| messages := messages w; users := users w; calls := calls w ++ [c] |}.

(** What the surroundings answer while one operation runs: the clock, the
    two calls to Slack, and the [message] that mongoose gives the
    [ValidationError] of a document that fails its schema (mongoose composes
    it from the failing paths; it is no part of the sources). *)
Record Env := {
  clock : Date;
  oauth_v2_access : string → HttpResult SlackRefreshResponse;
  chat_postMessage : string → string → string → HttpResult (option bool);
  ScheduledMessage_invalid : Message → string;
  SlackUser_invalid : string → User → string
}.

Definition scheduledFor_le (a b : ObjectId * Message) : Prop :=
  ScheduledMessage.scheduledFor a.2 ≤ ScheduledMessage.scheduledFor b.2.
Definition scheduledFor_ge (a b : ObjectId * Message) : Prop :=
  ScheduledMessage.scheduledFor b.2 ≤ ScheduledMessage.scheduledFor a.2.

#[global] Instance scheduledFor_le_dec : RelDecision scheduledFor_le :=
  λ a b, Z_le_dec _ _.
#[global] Instance scheduledFor_ge_dec : RelDecision scheduledFor_ge :=
  λ a b, Z_le_dec _ _.

(** [Model.find(query).sort({ scheduledFor: order })] *)
Definition find (query : Message → bool) (order : SortOrder)
    (coll : gmap ObjectId Message) : list (ObjectId * Message) :=
  let found := filter (λ kv, query kv.2 = true) (map_to_list coll) in
  match order with
  | Ascending => merge_sort scheduledFor_le found
  | Descending => merge_sort scheduledFor_ge found
  end.

(** [Model.findOne({ _id, ...query })] *)
Definition findOne (_id : ObjectId) (query : Message → bool)
    (coll : gmap ObjectId Message) : option Message :=
  d ← coll !! _id; if query d then Some d else None.

(** The answer to one awaited effect and the world it leaves.  The two
    collections are held in memory and every read and write of them is
    answered; what may fail in a [save()] is the validation, which [save()]
    runs on the whole document, new or loaded.  [save()] stores the document
    as the call holds it, after the [pre('save')] hook. *)
Definition handle (env : Env) {X} (e : Eff X) (w : World) : X * World :=
  match e in Eff X return X * World with
  | NewDate => (clock env, w)
  | NewObjectId => (fresh (dom (messages w)), w)
  | MsgFindById _id => (messages w !! _id, w)
  | MsgFindOne _id query => (findOne _id query (messages w), w)
  | MsgFind query order => (find query order (messages w), w)
  | MsgInsert _id d =>
      if ScheduledMessage.validate d
      then (Resolved tt,
            set_messages (<[_id := ScheduledMessage.pre_save (clock env) d]> (messages w)) w)
      else (Rejected (ScheduledMessage_invalid env d), w)
  | MsgUpdate _id d =>
      if ScheduledMessage.validate d
      then (Resolved tt,
            set_messages (<[_id := ScheduledMessage.pre_save (clock env) d]> (messages w)) w)
      else (Rejected (ScheduledMessage_invalid env d), w)
  | UserFindOne id => (users w !! id, w)
  | UserUpdate id u =>
      if SlackUser.validate id u
      then (Resolved tt,
            set_users (<[id := SlackUser.pre_save (clock env) u]> (users w)) w)
      else (Rejected (SlackUser_invalid env id u), w)
  | AxiosPostRefresh refresh_token =>
      (oauth_v2_access env refresh_token, log_call (CallOAuthAccess refresh_token) w)
  | ChatPostMessage token channel text =>
      (chat_postMessage env token channel text,
       log_call (CallChatPostMessage token channel text) w)
  end.

(** How an async call settles. *)
Inductive Outcome (A : Type) :=
| Returned (a : A)
| Thrown (msg : string).
Arguments Returned {A} a.
Arguments Thrown {A} msg.

(** Run a program to completion, with nothing else scheduled in between. *)
Fixpoint run (env : Env) {A} (p : Prog A) (w : World) : Outcome A * World :=
  match p with
  | Ret a => (Returned a, w)
  | Throw msg => (Thrown msg, w)
  | Vis e k => let '(x, w') := handle env e w in run env (k x) w'
  end.

(** [new Date()] and the construction of a document are synchronous: the
    event loop cannot schedule anything else there. *)
Definition synchronous {X} (e : Eff X) : bool :=
  match e with
  | NewDate | NewObjectId => true
  | _ => false
  end.

(** Resume a call up to its next [await] (or until it settles). *)
Fixpoint advance (env : Env) {A} (p : Prog A) (w : World) : Prog A * World :=
  match p with
  | Vis e k =>
      if synchronous e
      then let '(x, w') := handle env e w in advance env (k x) w'
      else (p, w)
  | _ => (p, w)
  end.

(** One turn of the event loop for one pending call: answer the effect it
    awaits and resume it up to its next [await]. *)
Definition step (env : Env) {A} (p : Prog A) (w : World) : Prog A * World :=
  match advance env p w with
  | (Vis e k, w1) => let '(x, w2) := handle env e w1 in advance env (k x) w2
  | done => done
  end.

(** Several calls in flight; [schedule] lists which one is resumed next. *)
Fixpoint run_schedule (env : Env) {A} (schedule : list nat)
    (pool : list (Prog A)) (w : World) : list (Prog A) * World :=
  match schedule with
  | [] => (pool, w)
  | i :: rest =>
      match pool !! i with
      | Some p => let '(p', w') := step env p w in
                  run_schedule env rest (<[i := p']> pool) w'
      | None => run_schedule env rest pool w
      end
  end.

(** The effect is a call of [chat.postMessage]. *)
Definition posts_message {X} (e : Eff X) : bool :=
  match e with
  | ChatPostMessage _ _ _ => true
  | _ => false
  end.

(** The call awaits the answer of [chat.postMessage]. *)
Definition awaits_post {A} (p : Prog A) : bool :=
  match p with
  | Vis e _ => posts_message e
  | _ => false
  end.

(** The world in which a call, run on its own, issues its first
    [chat.postMessage]; [None] when it settles without posting. *)
Fixpoint world_at_post (env : Env) {A} (p : Prog A) (w : World) : option World :=
  match p with
  | Vis e k =>
      if posts_message e then Some w
      else let '(x, w') := handle env e w in world_at_post env (k x) w'
  | _ => None
  end.

(** The call has settled. *)
Definition settled {A} (p : Prog A) : bool :=
  match p with
  | Vis _ _ => false
  | _ => true
  end.

(** ** services/SlackService.ts *)

(** JavaScript truthiness of an optional string and of an optional number. *)
Definition truthy_string (s : option string) : option string :=
  match s with
  | Some s => if String.eqb s "" then None else Some s
  | None => None
  end.

Definition truthy_number (n : option Z) : option Z :=
  match n with
  | Some n => if n =? 0 then None else Some n
  | None => None
  end.

Module SlackService.

(** [refreshAccessToken(refreshToken)] *)
Definition refreshAccessToken (refreshToken : string) : Prog SlackRefreshResponse :=
  try_catch
    (data ← await (AxiosPostRefresh refreshToken);
     if negb (ok data)
     then Throw ("Token refresh error: " ++ default "undefined" (error data))
     else Ret data)
    (λ _, Throw "Failed to refresh access token").

(** [sendMessage(accessToken, channelId, message)] *)
Definition sendMessage (accessToken channelId message : string) : Prog bool :=
  try_catch
    (result_ok ← await (ChatPostMessage accessToken channelId message);
     Ret (default false result_ok))
    (λ _, Throw "Failed to send message").

(** [ensureValidToken(userId)] *)
Definition ensureValidToken (userId : string) : Prog string :=
  try_catch
    (user ← perform (UserFindOne userId);
     match user with
     | None => Throw "User not found"
     | Some user =>
         match SlackUser.tokenExpiresAt user with
         | None => Ret (SlackUser.accessToken user)
         | Some tokenExpiresAt =>
             now ← perform NewDate;
             if Date_le tokenExpiresAt now then
               match truthy_string (SlackUser.refreshToken user) with
               | None => Throw "Token expired and no refresh token available"
               | Some refreshToken =>
                   refreshResponse ← refreshAccessToken refreshToken;
                   let user := SlackUser.set_accessToken (access_token refreshResponse) user in
                   let user :=
                     match truthy_string (refresh_token refreshResponse) with
                     | Some t => SlackUser.set_refreshToken t user
                     | None => user
                     end in
                   user ← match truthy_number (expires_in refreshResponse) with
                          | Some expires_in =>
                              now ← perform NewDate;
                              Ret (SlackUser.set_tokenExpiresAt (now + expires_in * 1000) user)
                          | None => Ret user
                          end;
                   await (UserUpdate userId user);;
                   Ret (access_token refreshResponse)
               end
             else Ret (SlackUser.accessToken user)
         end
     end)
    (λ error, Throw error).

End SlackService.

(** ** services/scheduler.ts *)

(** The objects returned by [getUserScheduledMessages]. *)
Module Listed.
Record item := mk {
  id : ObjectId;
  channelId : string;
  channelName : string;
  message : string;
  scheduledFor : Date;
  status : Status;
  createdAt : Date;
  sentAt : option Date;
  error : option string
}.
End Listed.

Module MessageScheduler.
Import ScheduledMessage.

(** [sendScheduledMessage(messageId)] *)
Definition sendScheduledMessage (messageId : ObjectId) : Prog unit :=
  try_catch
    (found ← perform (MsgFindById messageId);
     match found with
     | None => Ret tt
     | Some msg =>
         if negb (bool_decide (status msg = Pending)) then Ret tt
         else
           (* Update status to prevent duplicate processing *)
           let msg := set_status Sent msg in
           now ← perform NewDate;
           let msg := set_sentAt now msg in
           try_catch
             (accessToken ← SlackService.ensureValidToken (userId msg);
              success ← SlackService.sendMessage accessToken (channelId msg) (message msg);
              if success : bool
              then await (MsgUpdate messageId msg)
              else Throw "Failed to send message to Slack")
             (λ error,
                (* Mark as failed *)
                let msg := set_status Failed msg in
                let msg := set_error error msg in
                await (MsgUpdate messageId msg))
     end)
    (λ _, Ret tt).

(** [processScheduledMessages()], the body of the cron task *)
Definition processScheduledMessages : Prog unit :=
  try_catch
    (now ← perform NewDate;
     dueMessages ← perform
       (MsgFind (λ d, (scheduledFor d <=? now) && bool_decide (status d = Pending))
                Ascending);
     if (length dueMessages =? 0)%nat then Ret tt
     else for_of dueMessages (λ due, sendScheduledMessage due.1))
    (λ _, Ret tt).

(** [scheduleMessage(userId, teamId, channelId, channelName, message, scheduledFor)] *)
Definition scheduleMessage (userId teamId channelId channelName message : string)
    (scheduledFor : Date) : Prog ObjectId :=
  try_catch
    (now ← perform NewDate;
     (* Validate that the scheduled time is in the future *)
     if Date_le scheduledFor now then Throw "Scheduled time must be in the future"
     else
       _id ← perform NewObjectId;
       created ← perform NewDate;
       let scheduledMessage :=
         mk userId teamId channelId channelName message scheduledFor
            Pending created created None None in
       await (MsgInsert _id scheduledMessage);;
       Ret _id)
    (λ error, Throw error).

(** [cancelScheduledMessage(messageId, userId)] *)
Definition cancelScheduledMessage (messageId : ObjectId) (userId : string) : Prog bool :=
  try_catch
    (found ← perform
       (MsgFindOne messageId
          (λ d, String.eqb (ScheduledMessage.userId d) userId
                && bool_decide (status d = Pending)));
     match found with
     | None => Ret false
     | Some msg =>
         let msg := set_status Cancelled msg in
         await (MsgUpdate messageId msg);;
         Ret true
     end)
    (λ error, Throw error).

(** [getUserScheduledMessages(userId)] *)
Definition getUserScheduledMessages (userId : string) : Prog (list Listed.item) :=
  try_catch
    (found ← perform
       (MsgFind (λ d, String.eqb (ScheduledMessage.userId d) userId
                      && bool_decide (status d ∈ [Pending; Sent; Failed]))
                Descending);
     Ret (map (λ msg : ObjectId * Message,
                 Listed.mk msg.1 (channelId msg.2) (channelName msg.2) (message msg.2)
                           (scheduledFor msg.2) (status msg.2) (createdAt msg.2)
                           (sentAt msg.2) (ScheduledMessage.error msg.2))
              found))
    (λ error, Throw error).

End MessageScheduler.

(** ** routes/messages.ts: GET /messages/stats *)

Module Routes.

Record Stats := {
  total : nat;
  pending : nat;
  sent : nat;
  failed : nat;
  cancelled : nat
}.

(** The JSON the handler answers with. *)
Inductive Response :=
| Success (data : Stats)                 (* { success: true, data: stats } *)
| ServerError (error : string).          (* status 500 *)

Definition with_status (s : Status) (msg : Listed.item) : bool :=
  bool_decide (Listed.status msg = s).

Definition stats (userId : string) : Prog Response :=
  try_catch
    (messages ← MessageScheduler.getUserScheduledMessages userId;
     let stats :=
       {| total := length messages;
          pending := length (List.filter (with_status Pending) messages);
          sent := length (List.filter (with_status Sent) messages);
          failed := length (List.filter (with_status Failed) messages);
          cancelled := length (List.filter (with_status Cancelled) messages) |} in
     Ret (Success stats))
    (λ _, Ret (ServerError "Failed to fetch message statistics")).

End Routes.

(** ** The engine as a state machine *)

(** The operations that write to the delivery record store. *)
Inductive Operation :=
| Schedule (userId teamId channelId channelName message : string) (scheduledFor : Date)
| Cancel (messageId : ObjectId) (userId : string)
| SendNow (messageId : ObjectId)
| PollerTick.

(** The world after one operation has run to completion under [env]. *)
Definition after (env : Env) (op : Operation) (w : World) : World :=
  match op with
  | Schedule userId teamId channelId channelName message scheduledFor =>
      (run env (MessageScheduler.scheduleMessage
                  userId teamId channelId channelName message scheduledFor) w).2
  | Cancel messageId userId =>
      (run env (MessageScheduler.cancelScheduledMessage messageId userId) w).2
  | SendNow messageId =>
      (run env (MessageScheduler.sendScheduledMessage messageId) w).2
  | PollerTick =>
      (run env MessageScheduler.processScheduledMessages w).2
  end.

(** The world after a sequence of operations, each under its own clock and
    Slack answers. *)
Definition history (ops : list (Env * Operation)) (w : World) : World :=
  foldl (λ w eop, after eop.1 eop.2 w) w ops.

(** The world after a [save()] of a loaded message: the document is
    written when it passes the schema, and nothing is written when it fails. *)
Definition saved (env : Env) (_id : ObjectId) (d : Message) (w : World) : World :=
  if ScheduledMessage.validate d
  then set_messages (<[_id := ScheduledMessage.pre_save (clock env) d]> (messages w)) w
  else w.

(** The user document after a refresh answered with [r] at time [now], as
    [save()] receives it.  The new expiry is [new Date(now + expires_in *
    1000)], which is [Invalid Date] when the sum is beyond the range. *)
Definition refreshed (now : Date) (r : SlackRefreshResponse) (u : User) : User :=
  let u := SlackUser.set_accessToken (access_token r) u in
  let u := match truthy_string (refresh_token r) with
           | Some t => SlackUser.set_refreshToken t u
           | None => u
           end in
  match truthy_number (expires_in r) with
  | Some s => SlackUser.set_tokenExpiresAt (now + s * 1000) u
  | None => u
  end.

(** The object [getUserScheduledMessages] makes of a stored document. *)
Definition listed (msg : ObjectId * Message) : Listed.item :=
  Listed.mk msg.1 (ScheduledMessage.channelId msg.2) (ScheduledMessage.channelName msg.2)
            (ScheduledMessage.message msg.2) (ScheduledMessage.scheduledFor msg.2)
            (ScheduledMessage.status msg.2) (ScheduledMessage.createdAt msg.2)
            (ScheduledMessage.sentAt msg.2) (ScheduledMessage.error msg.2).

(** The query of the listing: the user's records in a listed status. *)
Definition listable (userId : string) (d : Message) : bool :=
  String.eqb (ScheduledMessage.userId d) userId
  && bool_decide (ScheduledMessage.status d ∈ [Pending; Sent; Failed]).

(** The query of the poller: due and still pending. *)
Definition due (now : Date) (d : Message) : bool :=
  (ScheduledMessage.scheduledFor d <=? now)
  && bool_decide (ScheduledMessage.status d = Pending).

(** The loop of the poller over the records it found. *)
Definition send_each (l : list (ObjectId * Message)) : Prog unit :=
  for_of l (λ due, MessageScheduler.sendScheduledMessage due.1).

(** [sentAt] is set exactly on the records that went through a delivery
    attempt. *)
Definition stamp_matches_status (m : Message) : Prop :=
  is_Some (ScheduledMessage.sentAt m) ↔
  ScheduledMessage.status m = Sent ∨ ScheduledMessage.status m = Failed.

Definition well_stamped (w : World) : Prop :=
  ∀ _id m, messages w !! _id = Some m → stamp_matches_status m.

(** Every stored record is well-formed for its schema. *)
Definition schema_valid (w : World) : Prop :=
  ∀ _id m, messages w !! _id = Some m → ScheduledMessage.validate m = true.

(** The number of stored records of a user in a given status. *)
Definition count_records (userId : string) (s : Status)
    (coll : gmap ObjectId Message) : nat :=
  length (List.filter
            (λ kv : ObjectId * Message,
               String.eqb (ScheduledMessage.userId kv.2) userId
               && bool_decide (ScheduledMessage.status kv.2 = s))
            (map_to_list coll)).

(** ** Sample data *)

Module Sample.

(** The texts of the validation errors in the samples. *)
Definition message_invalid (d : Message) : string :=
  "ScheduledMessage validation failed".
Definition user_invalid (id : string) (u : User) : string :=
  "SlackUser validation failed".

(** A workspace that answers every call. *)
Definition slack_up (now : Date) : Env :=
  {| clock := now;
     oauth_v2_access := λ _,
       Resolved {| ok := true; error := None; access_token := "xoxe-2";
                   refresh_token := Some "refresh-2"; expires_in := Some 3600 |};
     chat_postMessage := λ _ _ _, Resolved (Some true);
     ScheduledMessage_invalid := message_invalid;
     SlackUser_invalid := user_invalid |}.

(** A workspace that cannot be reached. *)
Definition slack_down (now : Date) : Env :=
  {| clock := now;
     oauth_v2_access := λ _, Rejected "ECONNREFUSED";
     chat_postMessage := λ _ _ _, Rejected "ECONNREFUSED";
     ScheduledMessage_invalid := message_invalid;
     SlackUser_invalid := user_invalid |}.

(** A workspace in which the channel C404 does not exist. *)
Definition slack_without_C404 (now : Date) : Env :=
  {| clock := now;
     oauth_v2_access := λ _, Rejected "ECONNREFUSED";
     chat_postMessage := λ _ channel _,
       if String.eqb channel "C404" then Rejected "channel_not_found"
       else Resolved (Some true);
     ScheduledMessage_invalid := message_invalid;
     SlackUser_invalid := user_invalid |}.

(** A user whose token does not expire. *)
Definition ann : User :=
  SlackUser.mk "Ann" None "T1" "Team" "xoxb-1" None None 1 1.

(** A user whose token expired at 50 and who holds a refresh token. *)
Definition bob : User :=
  SlackUser.mk "Bob" None "T1" "Team" "xoxe-1" (Some "refresh-1") (Some 50) 1 1.

(** A user whose token expired at 50 and who holds no refresh token. *)
Definition eve : User :=
  SlackUser.mk "Eve" None "T1" "Team" "xoxe-0" None (Some 50) 1 1.

Definition authorized : gmap string User :=
  {[ "U1" := ann; "U2" := bob; "U3" := eve ]}.

Definition record (userId channelId : string) (scheduledFor : Date) (s : Status) : Message :=
  ScheduledMessage.mk userId "T1" channelId "general" "hello" scheduledFor s 10 10
     (if bool_decide (s = Sent) then Some scheduledFor else None)
     (if bool_decide (s = Failed) then Some "Failed to send message" else None).

(** One pending record of Ann, due at 100. *)
Definition one_pending : World :=
  {| messages := {[ 1%N := record "U1" "C123" 100 Pending ]};
     users := authorized; calls := [] |}.

(** Two pending records of Ann, the earlier one for a missing channel. *)
Definition two_pending : World :=
  {| messages := {[ 1%N := record "U1" "C404" 100 Pending;
                    2%N := record "U1" "C123" 150 Pending ]};
     users := authorized; calls := [] |}.

(** Two pending records of Ann; the earlier one was stored without a
    channel name, which the schema requires. *)
Definition one_malformed : World :=
  {| messages := {[ 1%N := ScheduledMessage.mk "U1" "T1" "C123" "" "hello" 100
                             Pending 10 10 None None;
                    2%N := record "U1" "C123" 150 Pending ]};
     users := authorized; calls := [] |}.

(** One cancelled record of Ann. *)
Definition one_cancelled : World :=
  {| messages := {[ 1%N := record "U1" "C123" 100 Cancelled ]};
     users := authorized; calls := [] |}.

(** Ann's records: 3 pending, 2 sent, 1 failed and 1 cancelled. *)
Definition seven_records : World :=
  {| messages := {[ 1%N := record "U1" "C123" 910 Pending;
                    2%N := record "U1" "C123" 920 Pending;
                    3%N := record "U1" "C123" 930 Pending;
                    4%N := record "U1" "C123" 110 Sent;
                    5%N := record "U1" "C123" 120 Sent;
                    6%N := record "U1" "C123" 130 Failed;
                    7%N := record "U1" "C123" 940 Cancelled ]};
     users := authorized; calls := [] |}.

(** Nothing scheduled yet. *)
Definition nothing_scheduled : World :=
  {| messages := ∅; users := authorized; calls := [] |}.

(** A message body of 4001 characters. *)
Definition long_body : string :=
  Nat.iter 4001 (String.append "a") "".

End Sample.

(** ** What of a Slack answer the services look at *)

(** Of a refresh answer: the data of an [ok] answer; a rejection and an
    answer that is not [ok] count the same. *)
Definition refresh_outcome (r : HttpResult SlackRefreshResponse)
    : option SlackRefreshResponse :=
  match r with
  | Resolved data => if ok data then Some data else None
  | Rejected _ => None
  end.

(** Of a [chat.postMessage] answer: rejected, or resolved with [result.ok]
    truthy or not. *)
Definition post_outcome (r : HttpResult (option bool)) : option bool :=
  match r with
  | Resolved result_ok => Some (default false result_ok)
  | Rejected _ => None
  end.

(** Two surroundings that differ at most in the reasons and error texts
    Slack gives. *)
Definition same_answers (env1 env2 : Env) : Prop :=
  clock env1 = clock env2
  ∧ (∀ rt, refresh_outcome (oauth_v2_access env1 rt)
           = refresh_outcome (oauth_v2_access env2 rt))
  ∧ (∀ token channel text,
       post_outcome (chat_postMessage env1 token channel text)
       = post_outcome (chat_postMessage env2 token channel text))
  ∧ (∀ d, ScheduledMessage_invalid env1 d = ScheduledMessage_invalid env2 d)
  ∧ (∀ id u, SlackUser_invalid env1 id u = SlackUser_invalid env2 id u).

(** Newest due time first. *)
Definition later_or_same (a b : Listed.item) : Prop :=
  Listed.scheduledFor b ≤ Listed.scheduledFor a.

(** ** More sample data *)

Module Sample2.

(** A workspace whose refresh answers carry no [expires_in]. *)
Definition slack_without_expiry (now : Date) : Env :=
  {| clock := now;
     oauth_v2_access := λ _,
       Resolved {| ok := true; error := None; access_token := "xoxe-2";
                   refresh_token := None; expires_in := None |};
     chat_postMessage := λ _ _ _, Resolved (Some true);
     ScheduledMessage_invalid := Sample.message_invalid;
     SlackUser_invalid := Sample.user_invalid |}.

(** A workspace that cannot be reached, with other words for it. *)
Definition slack_timeout (now : Date) : Env :=
  {| clock := now;
     oauth_v2_access := λ _,
       Resolved {| ok := false; error := Some "invalid_refresh_token"; access_token := "";
                   refresh_token := None; expires_in := None |};
     chat_postMessage := λ _ _ _, Rejected "ETIMEDOUT";
     ScheduledMessage_invalid := Sample.message_invalid;
     SlackUser_invalid := Sample.user_invalid |}.

End Sample2.

(** ** The HTTP routes *)

(** What a handler sends: [res.status(status).json({ success, data, error,
    message })]; [res.json(...)] alone sends status 200. *)
Module Http.
Record Reply (D : Type) := mk {
  status : nat;
  success : bool;
  data : option D;
  error : option string;
  message : option string
}.
Arguments mk {D} status success data error message.
Arguments status {D} r.
Arguments success {D} r.
Arguments data {D} r.
Arguments error {D} r.
Arguments message {D} r.

(** [{ success: false, error }] with a status. *)
Definition failure {D} (status : nat) (error : string) : Reply D :=
  mk status false None (Some error) None.
End Http.

(** The decoded JWT that [authenticateUser] leaves in [req.user]; the
    payload is the one the OAuth callback signs. *)
Record AuthUser := {
  auth_userId : string;
  auth_teamId : string;
  auth_teamName : string;
  auth_userName : string
}.

(** routes/messages.ts, the handlers behind [authenticateUser]. *)
Module MessageRoutes.

(** [GET /messages/scheduled] *)
Definition scheduled (user : AuthUser) : Prog (Http.Reply (list Listed.item)) :=
  try_catch
    (scheduledMessages ← MessageScheduler.getUserScheduledMessages (auth_userId user);
     Ret (Http.mk 200 true (Some scheduledMessages) None None))
    (λ _, Ret (Http.failure 500 "Failed to fetch scheduled messages")).

(** [DELETE /messages/scheduled/:messageId].  [messageId] is the ObjectId
    that the query casts the path parameter to, so the check for an empty
    parameter never fires. *)
Definition cancel (user : AuthUser) (messageId : ObjectId) : Prog (Http.Reply unit) :=
  try_catch
    (success ← MessageScheduler.cancelScheduledMessage messageId (auth_userId user);
     if success : bool
     then Ret (Http.mk 200 true None None (Some "Message cancelled successfully"))
     else Ret (Http.failure 404 "Scheduled message not found or already sent"))
    (λ _, Ret (Http.failure 500 "Failed to cancel scheduled message")).

(** [POST /messages/send-now/:messageId].  [messageId] is the path
    parameter as the caller spelled it; the handler compares it, as a string,
    with the [id] of each listed item, which is [_id.toString()].  Where an
    item is found, the parameter spells the [_id] of that item, and that is
    the id [findById] casts it to in [sendScheduledMessage(messageId)]. *)
Definition sendNow (user : AuthUser) (messageId : string) : Prog (Http.Reply unit) :=
  if String.eqb messageId "" then Ret (Http.failure 400 "Message ID is required")
  else
    try_catch
      ((* Get the scheduled messages to verify ownership *)
       userMessages ← MessageScheduler.getUserScheduledMessages (auth_userId user);
       match List.find (λ msg, String.eqb (ObjectId_toString (Listed.id msg)) messageId
                               && bool_decide (Listed.status msg = Pending))
                       userMessages with
       | None => Ret (Http.failure 404 "Scheduled message not found or already sent")
       | Some message =>
           (* Send the message immediately *)
           MessageScheduler.sendScheduledMessage (Listed.id message);;
           Ret (Http.mk 200 true None None (Some "Message sent successfully"))
       end)
      (λ _, Ret (Http.failure 500 "Failed to send scheduled message")).

End MessageRoutes.

(** routes/slack.ts: [POST /slack/send-message], the immediate send. *)
Module SlackRoutes.

(** The body of the request, [{ channelId, message }]; a field may be absent. *)
Record SendMessageRequest := {
  channelId : option string;
  message : option string
}.

Definition sendMessage (user : AuthUser) (body : SendMessageRequest)
    : Prog (Http.Reply unit) :=
  match truthy_string (channelId body), truthy_string (message body) with
  | Some channelId, Some message =>
      try_catch
        ((* Get valid access token (refresh if necessary) *)
         accessToken ← SlackService.ensureValidToken (auth_userId user);
         (* Send message *)
         success ← SlackService.sendMessage accessToken channelId message;
         if success : bool
         then Ret (Http.mk 200 true None None (Some "Message sent successfully"))
         else Ret (Http.failure 500 "Failed to send message"))
        (λ _, Ret (Http.failure 500 "Failed to send message"))
  | _, _ => Ret (Http.failure 400 "Channel ID and message are required")
  end.

End SlackRoutes.

(** ** The middleware *)

Module Middleware.

(** [s.split(' ')]: the pieces between single spaces, empty pieces kept. *)
Fixpoint split_space (s : string) : list string :=
  match s with
  | EmptyString => [""]
  | String c rest =>
      if String.eqb (String c "") " " then "" :: split_space rest
      else match split_space rest with
           | piece :: pieces => String c piece :: pieces
           | [] => [String c ""]
           end
  end.

(** No space occurs in the string. *)
Fixpoint spaceless (s : string) : bool :=
  match s with
  | EmptyString => true
  | String c rest => negb (String.eqb (String c "") " ") && spaceless rest
  end.

(** [process.env.JWT_SECRET || 'default-secret'] *)
Definition jwt_secret (JWT_SECRET : option string) : string :=
  default "default-secret" (truthy_string JWT_SECRET).

(** [authenticateUser] of routes/messages.ts and routes/slack.ts.
    [jwt_verify token secret] stands for [jwt.verify]: the decoded payload,
    or [None] where it throws.  The result is the reply sent, or the user
    put in [req.user] when [next()] is called. *)
Definition authenticateUser (jwt_verify : string → string → option AuthUser)
    (JWT_SECRET : option string) (authorization : option string)
    : Http.Reply unit + AuthUser :=
  let token := authHeader ← authorization; split_space authHeader !! 1%nat in
  match truthy_string token with
  | None => inl (Http.failure 401 "Access token is required")
  | Some token =>
      match jwt_verify token (jwt_secret JWT_SECRET) with
      | Some decoded => inr decoded
      | None => inl (Http.failure 401 "Invalid access token")
      end
  end.

(** The error object [errorHandler] receives (middleware/errorHandler.ts):
    [CustomError] with the fields of mongoose errors that the handler reads.
    [errors] holds the [message] of each entry of [err.errors]. *)
Record CustomError := {
  name : string;
  message : string;
  statusCode : option Z;
  status : option Z;
  code : option Z;
  errors : option (list string);
  stack : option string
}.

(** [res.status(statusCode).json({ success: false, error: message, stack? })] *)
Record ErrorReply := {
  reply_status : Z;
  reply_error : string;
  reply_stack : option string
}.

(** [res.status(statusCode).json({ success: false, error, stack? })]: a
    status that is not within 100..999 is refused with a [RangeError] (its
    text is abbreviated) and nothing is sent. *)
Definition send (statusCode : Z) (error : string) (stack : option string)
    : Outcome ErrorReply :=
  if (100 <=? statusCode) && (statusCode <=? 999)
  then Returned {| reply_status := statusCode; reply_error := error;
                   reply_stack := stack |}
  else Thrown "Invalid status code".

(** [errorHandler(err, req, res, next)]; it throws where [Object.values]
    is given an [err.errors] that is undefined, and where the status is
    refused. *)
Definition errorHandler (NODE_ENV : option string) (err : CustomError)
    : Outcome ErrorReply :=
  (* Default to 500 server error *)
  let statusCode :=
    match truthy_number (statusCode err) with
    | Some n => n
    | None => default 500 (truthy_number (status err))
    end in
  let message_ :=
    if String.eqb (message err) "" then "Internal Server Error" else message err in
  (* Mongoose bad ObjectId *)
  let '(statusCode, message_) :=
    if String.eqb (name err) "CastError" then (400, "Invalid ID format")
    else (statusCode, message_) in
  (* Mongoose duplicate key *)
  let '(statusCode, message_) :=
    if String.eqb (name err) "MongoError" && bool_decide (code err = Some 11000)
    then (400, "Duplicate field value entered")
    else (statusCode, message_) in
  let stack_ :=
    if bool_decide (NODE_ENV = Some "development") then stack err else None in
  (* Mongoose validation error *)
  if String.eqb (name err) "ValidationError" then
    match errors err with
    | Some messages => send 400 (String.concat ", " messages) stack_
    | None => Thrown "Cannot convert undefined or null to object"
    end
  else send statusCode message_ stack_.

End Middleware.

(** ** Reading from Slack *)

(** One entry of [result.channels] of [conversations.list], with the
    fields [getUserChannels] reads; each may be absent. *)
Record Conversation := {
  conversation_id : option string;
  conversation_name : option string;
  is_private : option bool;
  is_member : option bool
}.

(** The answer of [conversations.list]: [{ok, channels?}]. *)
Record ConversationsListResponse := {
  list_ok : bool;
  list_channels : option (list Conversation)
}.

(** [result.user] of [users.info], with the fields the routes read. *)
Record UserInfo := {
  real_name : option string;
  display_name : option string;
  email : option string;
  image_192 : option string;
  tz_label : option string
}.

(** The answer of [users.info]: [{ok, user?}]. *)
Record UsersInfoResponse := {
  info_ok : bool;
  info_user : option UserInfo
}.

(** [SlackChannel] ([types]).  [id] is [channel.id!], which is undefined
    where Slack sends none. *)
Module SlackChannel.
Record item := mk {
  id : option string;
  name : string;
  isPrivate : bool;
  isMember : bool
}.
End SlackChannel.

(** The two methods of [WebClient] that only read from Slack.  A request
    calls each at most once, so that the answer is a function of the
    arguments of the call: the token of the client and, for [users.info],
    the user asked for. *)
Record SlackWeb := {
  conversations_list : string → HttpResult ConversationsListResponse;
  users_info : string → string → HttpResult UsersInfoResponse
}.

(** Awaiting a promise that has settled. *)
Definition settle {X} (r : HttpResult X) : Prog X :=
  match r with
  | Rejected reason => Throw reason
  | Resolved data => Ret data
  end.

Module SlackReads.

(** [SlackService.getUserChannels(accessToken)] *)
Definition getUserChannels (web : SlackWeb) (accessToken : string)
    : Prog (list SlackChannel.item) :=
  try_catch
    ((* Get all conversations (channels, groups, DMs) *)
     result ← settle (conversations_list web accessToken);
     match list_ok result, list_channels result with
     | true, Some channels =>
         Ret ((λ channel,
                 SlackChannel.mk
                   (conversation_id channel)
                   (default "Unknown" (truthy_string (conversation_name channel)))
                   (default false (is_private channel))
                   (default false (is_member channel))) <$> channels)
     | _, _ => Throw "Failed to fetch channels"
     end)
    (λ _, Throw "Failed to fetch user channels").

(** [SlackService.getUserInfo(accessToken, userId)] *)
Definition getUserInfo (web : SlackWeb) (accessToken userId : string) : Prog UserInfo :=
  try_catch
    (result ← settle (users_info web accessToken userId);
     match info_ok result, info_user result with
     | true, Some user => Ret user
     | _, _ => Throw "Failed to get user info"
     end)
    (λ _, Throw "Failed to get user information").

End SlackReads.

(** The channel that [getUserChannels] makes of an entry of Slack's list. *)
Definition as_channel (channel : Conversation) : SlackChannel.item :=
  SlackChannel.mk (conversation_id channel)
                  (default "Unknown" (truthy_string (conversation_name channel)))
                  (default false (is_private channel))
                  (default false (is_member channel)).

(** What [getUserChannels] makes of the answer of [conversations.list]. *)
Definition channels_of (r : HttpResult ConversationsListResponse)
    : option (list SlackChannel.item) :=
  match r with
  | Resolved result =>
      match list_ok result, list_channels result with
      | true, Some channels => Some (as_channel <$> channels)
      | _, _ => None
      end
  | Rejected _ => None
  end.

(** routes/messages.ts: [POST /messages/schedule]. *)
Module ScheduleRoute.

(** [MessageRequest], the body of the request; a field may be absent. *)
Record MessageRequest := {
  channelId : option string;
  message : option string;
  scheduledFor : option string
}.

(** The [data] of the answer 201.  [scheduledFor] is the instant that the
    answer prints with [toISOString()]. *)
Record Scheduled := {
  scheduled_messageId : ObjectId;
  scheduled_channelId : string;
  scheduled_channelName : string;
  scheduled_message : string;
  scheduled_scheduledFor : Date;
  scheduled_status : string
}.

(** The handler.  [new_Date] is [new Date(scheduledFor)] on a string:
    [None] is the invalid date, whose [getTime()] is [NaN]. *)
Definition schedule (new_Date : string → option Date) (web : SlackWeb)
    (user : AuthUser) (body : MessageRequest) : Prog (Http.Reply Scheduled) :=
  match truthy_string (channelId body), truthy_string (message body),
        truthy_string (scheduledFor body) with
  | Some channelId, Some message, Some scheduledFor =>
      try_catch
        ((* Validate scheduled time *)
         match new_Date scheduledFor with
         | None => Ret (Http.failure 400 "Scheduled time must be a valid future date")
         | Some scheduledDate =>
             now ← perform NewDate;
             if scheduledDate <=? now
             then Ret (Http.failure 400 "Scheduled time must be a valid future date")
             else
               (* Get valid access token and channels to validate channel access *)
               accessToken ← SlackService.ensureValidToken (auth_userId user);
               channels ← SlackReads.getUserChannels web accessToken;
               match List.find (λ ch, bool_decide (SlackChannel.id ch = Some channelId))
                               channels with
               | None => Ret (Http.failure 400 "Channel not found or not accessible")
               | Some targetChannel =>
                   (* Schedule the message *)
                   messageId ← MessageScheduler.scheduleMessage
                                 (auth_userId user) (auth_teamId user) channelId
                                 (SlackChannel.name targetChannel) message scheduledDate;
                   Ret (Http.mk 201 true
                          (Some {| scheduled_messageId := messageId;
                                   scheduled_channelId := channelId;
                                   scheduled_channelName := SlackChannel.name targetChannel;
                                   scheduled_message := message;
                                   scheduled_scheduledFor := scheduledDate;
                                   scheduled_status := "scheduled" |})
                          None (Some "Message scheduled successfully"))
               end
         end)
        (λ error, Ret (Http.failure 500 error))
  | _, _, _ => Ret (Http.failure 400 "Channel ID, message, and scheduled time are required")
  end.

End ScheduleRoute.

(** routes/slack.ts: the routes that read from Slack. *)
Module SlackReadRoutes.

(** [GET /slack/channels] *)
Definition channels (web : SlackWeb) (user : AuthUser)
    : Prog (Http.Reply (list SlackChannel.item)) :=
  try_catch
    ((* Get valid access token (refresh if necessary) *)
     accessToken ← SlackService.ensureValidToken (auth_userId user);
     (* Get user's channels *)
     channels ← SlackReads.getUserChannels web accessToken;
     Ret (Http.mk 200 true (Some channels) None None))
    (λ _, Ret (Http.failure 500 "Failed to fetch channels")).

(** The [data] of [GET /slack/connection-status]; [lastChecked] is the
    instant that the answer prints with [toISOString()]. *)
Record ConnectionStatus := {
  connected : bool;
  status_teamId : option string;
  status_teamName : option string;
  status_error : option string;
  lastChecked : Date
}.

(** [GET /slack/connection-status] *)
Definition connectionStatus (web : SlackWeb) (user : AuthUser)
    : Prog (Http.Reply ConnectionStatus) :=
  try_catch
    ((* Try to get a valid access token (will refresh if needed) *)
     accessToken ← SlackService.ensureValidToken (auth_userId user);
     (* Test the connection by getting user info *)
     SlackReads.getUserInfo web accessToken (auth_userId user);;
     lastChecked ← perform NewDate;
     Ret (Http.mk 200 true
            (Some {| connected := true;
                     status_teamId := Some (auth_teamId user);
                     status_teamName := Some (auth_teamName user);
                     status_error := None;
                     lastChecked := lastChecked |})
            None None))
    (λ error,
       lastChecked ← perform NewDate;
       Ret (Http.mk 200 true
              (Some {| connected := false;
                       status_teamId := None;
                       status_teamName := None;
                       status_error := Some error;
                       lastChecked := lastChecked |})
              None None)).

End SlackReadRoutes.

Module Sample3.

(** A workspace that lists the channel C1 as general and a channel C2
    without a name. *)
Definition two_channels : SlackWeb :=
  {| conversations_list := λ _,
       Resolved {| list_ok := true;
                   list_channels :=
                     Some [ {| conversation_id := Some "C1";
                               conversation_name := Some "general";
                               is_private := Some false; is_member := Some true |};
                            {| conversation_id := Some "C2";
                               conversation_name := None;
                               is_private := None; is_member := None |} ] |};
     users_info := λ _ _,
       Resolved {| info_ok := true;
                   info_user := Some {| real_name := Some "Ann"; display_name := None;
                                        email := None; image_192 := None;
                                        tz_label := None |} |} |}.

(** A workspace whose reads fail. *)
Definition unreachable : SlackWeb :=
  {| conversations_list := λ _, Rejected "ECONNREFUSED";
     users_info := λ _ _, Rejected "ECONNREFUSED" |}.

(** A date parser for the samples: it reads the instants 200 and 50. *)
Definition new_Date (s : string) : option Date :=
  if String.eqb s "200" then Some 200
  else if String.eqb s "50" then Some 50
  else None.

Definition ann_token : AuthUser :=
  {| auth_userId := "U1"; auth_teamId := "T1"; auth_teamName := "Team";
     auth_userName := "Ann" |}.

Definition bob_token : AuthUser :=
  {| auth_userId := "U2"; auth_teamId := "T1"; auth_teamName := "Team";
     auth_userName := "Bob" |}.

End Sample3.

(** * Properties *)

(** ** Running composed programs *)

Lemma run_bind env {A B} (p : Prog A) (f : A → Prog B) w :
  run env (p ≫= f) w =
  match run env p w with
  | (Returned a, w') => run env (f a) w'
  | (Thrown msg, w') => (Thrown msg, w')
  end.
Proof.
  revert w. induction p as [a|msg|X e k IH]; intros w; try done.
  cbn. destruct (handle env e w) as [x w']. apply IH.
Qed.

Lemma run_try_catch env {A} (p : Prog A) handler w :
  run env (try_catch p handler) w =
  match run env p w with
  | (Returned a, w') => (Returned a, w')
  | (Thrown msg, w') => run env (handler msg) w'
  end.
Proof.
  revert w. induction p as [a|msg|X e k IH]; intros w; try done.
  cbn. destruct (handle env e w) as [x w']. apply IH.
Qed.

Lemma run_for_of_cons env {X} (x : X) l body w :
  run env (for_of (x :: l) body) w =
  match run env (body x) w with
  | (Returned _, w') => run env (for_of l body) w'
  | (Thrown msg, w') => (Thrown msg, w')
  end.
Proof. cbn [for_of]. apply (run_bind env (body x)). Qed.

(** A handler that rethrows, [catch (error) { throw error; }], changes nothing. *)
Lemma run_rethrow env {A} (p : Prog A) w :
  run env (try_catch p (λ error, Throw error)) w = run env p w.
Proof. rewrite run_try_catch. by destruct (run env p w) as [[a|msg] w']. Qed.

(** ** Dates *)

Lemma Date_le_true a now : Date_le a now = true ↔ Date_valid a = true ∧ a ≤ now.
Proof. unfold Date_le. by rewrite andb_true_iff, Z.leb_le. Qed.

Lemma Date_le_later a now : now < a → Date_le a now = false.
Proof.
  intros Hlater. unfold Date_le. rewrite (proj2 (Z.leb_gt _ _) Hlater).
  apply andb_false_r.
Qed.

(** ** ensureValidToken *)

Section ensureValidToken.
Import SlackUser.
Variables (env : Env) (w : World) (userId : string).

Lemma ensureValidToken_no_user :
  users w !! userId = None →
  run env (SlackService.ensureValidToken userId) w = (Thrown "User not found", w).
Proof.
  intros Hu. unfold SlackService.ensureValidToken.
  rewrite run_rethrow. cbn. by rewrite Hu.
Qed.

(** A token without an expiry, or whose expiry has not been reached (or is
    no date), is returned as it is stored. *)
Lemma ensureValidToken_current u :
  users w !! userId = Some u →
  (∀ t, tokenExpiresAt u = Some t → Date_le t (clock env) = false) →
  run env (SlackService.ensureValidToken userId) w = (Returned (accessToken u), w).
Proof.
  intros Hu Hexp. unfold SlackService.ensureValidToken.
  rewrite run_rethrow. cbn. rewrite Hu.
  destruct (tokenExpiresAt u) as [t|]; [|done].
  cbn. by rewrite (Hexp t).
Qed.

Lemma ensureValidToken_not_expired u :
  users w !! userId = Some u →
  (tokenExpiresAt u = None ∨ ∃ t, tokenExpiresAt u = Some t ∧ clock env < t) →
  run env (SlackService.ensureValidToken userId) w = (Returned (accessToken u), w).
Proof.
  intros Hu Hexp. apply ensureValidToken_current; [done|].
  intros t Ht. destruct Hexp as [Hnone|(t' & Ht' & Hlater)]; [congruence|].
  apply Date_le_later. congruence.
Qed.

Lemma ensureValidToken_no_refresh_token u t :
  users w !! userId = Some u →
  tokenExpiresAt u = Some t → Date_le t (clock env) = true →
  truthy_string (refreshToken u) = None →
  run env (SlackService.ensureValidToken userId) w
  = (Thrown "Token expired and no refresh token available", w).
Proof.
  intros Hu Ht Hle Hrt. unfold SlackService.ensureValidToken.
  rewrite run_rethrow. cbn. rewrite Hu, Ht. cbn.
  by rewrite Hle, Hrt.
Qed.

Lemma ensureValidToken_refresh u t rt :
  users w !! userId = Some u →
  tokenExpiresAt u = Some t → Date_le t (clock env) = true →
  truthy_string (refreshToken u) = Some rt →
  run env (SlackService.ensureValidToken userId) w =
  let w1 := log_call (CallOAuthAccess rt) w in
  match oauth_v2_access env rt with
  | Resolved r =>
      if ok r then
        let u' := refreshed (clock env) r u in
        if validate userId u'
        then (Returned (access_token r),
              set_users (<[userId := pre_save (clock env) u']> (users w1)) w1)
        else (Thrown (SlackUser_invalid env userId u'), w1)
      else (Thrown "Failed to refresh access token", w1)
  | Rejected _ => (Thrown "Failed to refresh access token", w1)
  end.
Proof.
  intros Hu Ht Hle Hrt. unfold SlackService.ensureValidToken.
  rewrite run_rethrow. cbn. rewrite Hu, Ht. cbn.
  rewrite Hle, Hrt. cbn.
  destruct (oauth_v2_access env rt) as [reason|r]; cbn; [done|].
  destruct (ok r); cbn; [|done].
  unfold refreshed.
  destruct (truthy_number (expires_in r)) as [s|]; cbn;
    destruct (truthy_string (refresh_token r)); cbn;
    by destruct (validate userId _).
Qed.

(** The token check, by cases. *)
Lemma ensureValidToken_cases :
  run env (SlackService.ensureValidToken userId) w =
  match users w !! userId with
  | None => (Thrown "User not found", w)
  | Some u =>
      match tokenExpiresAt u with
      | None => (Returned (accessToken u), w)
      | Some t =>
          if Date_le t (clock env) then
            match truthy_string (refreshToken u) with
            | None => (Thrown "Token expired and no refresh token available", w)
            | Some rt =>
                let w1 := log_call (CallOAuthAccess rt) w in
                match refresh_outcome (oauth_v2_access env rt) with
                | Some r =>
                    let u' := refreshed (clock env) r u in
                    if validate userId u'
                    then (Returned (access_token r),
                          set_users (<[userId := pre_save (clock env) u']> (users w1)) w1)
                    else (Thrown (SlackUser_invalid env userId u'), w1)
                | None => (Thrown "Failed to refresh access token", w1)
                end
            end
          else (Returned (accessToken u), w)
      end
  end.
Proof.
  destruct (users w !! userId) as [u|] eqn:Hu; [|by apply ensureValidToken_no_user].
  destruct (tokenExpiresAt u) as [t|] eqn:Ht;
    [|apply ensureValidToken_current; [done|congruence]].
  destruct (Date_le t (clock env)) eqn:Hle;
    [|apply ensureValidToken_current; [done|congruence]].
  destruct (truthy_string (refreshToken u)) as [rt|] eqn:Hrt;
    [|by apply (ensureValidToken_no_refresh_token u t)].
  rewrite (ensureValidToken_refresh u t rt) by done. cbn zeta. unfold refresh_outcome.
  destruct (oauth_v2_access env rt) as [?|r]; [done|]. by destruct (ok r).
Qed.

End ensureValidToken.

Lemma posts_log_oauth l rt : posts (l ++ [CallOAuthAccess rt]) = posts l.
Proof. unfold posts. rewrite List.filter_app. cbn. by rewrite app_nil_r. Qed.

Lemma posts_log_post l token channel text :
  posts (l ++ [CallChatPostMessage token channel text]) = S (posts l).
Proof. unfold posts. rewrite List.filter_app, length_app. cbn. lia. Qed.

(** A token check reads and writes the user collection only, and posts nothing. *)
Lemma ensureValidToken_frame env w userId :
  let w' := (run env (SlackService.ensureValidToken userId) w).2 in
  messages w' = messages w ∧ posts (calls w') = posts (calls w).
Proof.
  rewrite ensureValidToken_cases.
  destruct (users w !! userId) as [u|]; [|done].
  destruct (SlackUser.tokenExpiresAt u) as [t|]; [|done].
  destruct (Date_le t (clock env)); [|done].
  destruct (truthy_string (SlackUser.refreshToken u)) as [rt|]; [|done]. cbn zeta.
  destruct (refresh_outcome _) as [r|]; [destruct (SlackUser.validate _ _)|];
    cbn -[posts]; by rewrite posts_log_oauth.
Qed.

(** ** sendScheduledMessage *)

(** A [save()] of a message leaves the users and the call log alone. *)
Lemma calls_saved env _id d w : calls (saved env _id d w) = calls w.
Proof. unfold saved. by destruct (ScheduledMessage.validate d). Qed.

(** The validation reads none of the fields that a delivery attempt or a
    cancel sets: the check of the document to be saved is the check of the
    document as loaded. *)
Ltac validate_as_loaded m :=
  repeat match goal with
         | |- context [ScheduledMessage.validate ?d] =>
             lazymatch d with
             | m => fail
             | _ => change (ScheduledMessage.validate d) with (ScheduledMessage.validate m)
             end
         end.

Section sendScheduledMessage.
Import ScheduledMessage.
Variables (env : Env) (w : World) (messageId : ObjectId).

(** Nothing happens for an unknown id or a record that is not pending. *)
Lemma sendScheduledMessage_skips :
  (∀ m, messages w !! messageId = Some m → status m ≠ Pending) →
  run env (MessageScheduler.sendScheduledMessage messageId) w = (Returned tt, w).
Proof.
  intros Hskip. unfold MessageScheduler.sendScheduledMessage.
  rewrite run_try_catch. cbn.
  destruct (messages w !! messageId) as [m|]; [|done].
  by rewrite bool_decide_eq_false_2 by auto.
Qed.

(** What one delivery attempt does to a pending record.  Where the
    record fails the schema, the [save()] after the post rejects, the
    [save()] of the failure rejects as well, and the outer [catch] ends the
    call: the record stays as it was. *)
Lemma sendScheduledMessage_pending m :
  messages w !! messageId = Some m → status m = Pending →
  run env (MessageScheduler.sendScheduledMessage messageId) w =
  let claimed := set_sentAt (clock env) (set_status Sent m) in
  let fail error := set_error error (set_status Failed claimed) in
  match run env (SlackService.ensureValidToken (userId m)) w with
  | (Thrown error, w1) => (Returned tt, saved env messageId (fail error) w1)
  | (Returned accessToken, w1) =>
      let w2 := log_call (CallChatPostMessage accessToken (channelId m) (message m)) w1 in
      match chat_postMessage env accessToken (channelId m) (message m) with
      | Resolved (Some true) => (Returned tt, saved env messageId claimed w2)
      | Resolved _ =>
          (Returned tt, saved env messageId (fail "Failed to send message to Slack") w2)
      | Rejected _ =>
          (Returned tt, saved env messageId (fail "Failed to send message") w2)
      end
  end.
Proof.
  intros Hm Hst. unfold MessageScheduler.sendScheduledMessage.
  rewrite run_try_catch.
  cbn [run perform mbind Prog_bind bind handle]. rewrite Hm.
  rewrite bool_decide_eq_true_2 by done.
  cbn [negb run perform mbind Prog_bind bind handle].
  rewrite run_try_catch, (run_bind env (SlackService.ensureValidToken _)).
  cbn [userId set_sentAt set_status channelId message].
  unfold saved. validate_as_loaded m.
  destruct (validate m) eqn:Hvalid;
    (destruct (run env (SlackService.ensureValidToken (userId m)) w) as [[tok|e] w1];
     [unfold SlackService.sendMessage; cbn -[validate];
      destruct (chat_postMessage env tok (channelId m) (message m)) as [?|[[]|]]|]);
    repeat (cbn -[validate]; validate_as_loaded m; rewrite ?Hvalid); done.
Qed.

End sendScheduledMessage.

Section sendScheduledMessage_outcome.
Import ScheduledMessage.
Variables (env : Env) (w : World) (messageId : ObjectId).
Local Abbreviation w' := (after env (SendNow messageId) w).

(** Every error is caught inside: the call itself never rejects. *)
Lemma sendScheduledMessage_returns :
  (run env (MessageScheduler.sendScheduledMessage messageId) w).1 = Returned tt.
Proof.
  destruct (messages w !! messageId) as [m|] eqn:Hm.
  - destruct (decide (status m = Pending)) as [Hst|Hst].
    + rewrite (sendScheduledMessage_pending _ _ _ m) by done. cbn zeta.
      destruct (run env (SlackService.ensureValidToken _) w) as [[tok|e] w1]; [|done].
      by destruct (chat_postMessage env tok _ _) as [?|[[]|]].
    + rewrite sendScheduledMessage_skips; [done|congruence].
  - rewrite sendScheduledMessage_skips; [done|congruence].
Qed.

(** One attempt on a pending record posts at most one message.  A record
    that passes the schema is written back once, as sent or as failed, with
    the [sentAt] stamp of the attempt; a record that fails the schema is not
    written. *)
Lemma sendScheduledMessage_attempt m :
  messages w !! messageId = Some m → status m = Pending →
  (posts (calls w') ≤ S (posts (calls w)))%nat
  ∧ if validate m
    then ∃ m', messages w' = <[messageId := m']> (messages w)
               ∧ (status m' = Sent ∨ status m' = Failed)
               ∧ sentAt m' = Some (clock env)
               ∧ (status m' = Failed → is_Some (error m'))
    else messages w' = messages w.
Proof.
  intros Hm Hst. cbn [after].
  rewrite (sendScheduledMessage_pending _ _ _ m) by done. cbn zeta.
  destruct (ensureValidToken_frame env w (userId m)) as [Hmsg Hposts].
  unfold saved.
  destruct (run env (SlackService.ensureValidToken (userId m)) w) as [[tok|e] w1];
    cbn [snd] in Hmsg, Hposts;
    [destruct (chat_postMessage env tok _ _) as [?|[[]|]]|];
    validate_as_loaded m; destruct (validate m);
    cbn -[posts]; rewrite ?Hmsg, ?posts_log_post, ?Hposts;
    (split; [lia|]); try done;
    (eexists; split; [reflexivity|]; cbn; split_and!; eauto; done).
Qed.

(** A pending record that passes the schema is written back once, as sent
    or as failed, with the [sentAt] stamp of the attempt; at most one message
    is posted. *)
Lemma sendScheduledMessage_settles m :
  messages w !! messageId = Some m → status m = Pending → validate m = true →
  ∃ m', messages w' = <[messageId := m']> (messages w)
        ∧ (status m' = Sent ∨ status m' = Failed)
        ∧ sentAt m' = Some (clock env)
        ∧ (status m' = Failed → is_Some (error m'))
        ∧ (posts (calls w') ≤ S (posts (calls w)))%nat.
Proof.
  intros Hm Hst Hvalid.
  destruct (sendScheduledMessage_attempt m Hm Hst) as [Hposts Hwritten].
  rewrite Hvalid in Hwritten. destruct Hwritten as (m' & ? & ? & ? & ?).
  by exists m'.
Qed.

(** No other record is touched. *)
Lemma sendScheduledMessage_other j :
  j ≠ messageId → messages w' !! j = messages w !! j.
Proof.
  intros Hj.
  destruct (messages w !! messageId) as [m|] eqn:Hm.
  - destruct (decide (status m = Pending)) as [Hst|Hst].
    + destruct (sendScheduledMessage_attempt m Hm Hst) as [_ Hwritten].
      destruct (validate m); [|by rewrite Hwritten].
      destruct Hwritten as (m' & Hw' & _). by rewrite Hw', lookup_insert_ne.
    + cbn [after]. rewrite sendScheduledMessage_skips; [done|congruence].
  - cbn [after]. rewrite sendScheduledMessage_skips; [done|congruence].
Qed.

(** A record that is no longer pending is left exactly as it is. *)
Lemma sendScheduledMessage_keeps_settled j m :
  messages w !! j = Some m → status m ≠ Pending → messages w' !! j = Some m.
Proof.
  intros Hm Hst. destruct (decide (j = messageId)) as [->|Hj].
  - cbn [after]. rewrite sendScheduledMessage_skips; [done|congruence].
  - by rewrite sendScheduledMessage_other.
Qed.

(** After the call no pending record is left under the id, provided the
    record did pass the schema. *)
Lemma sendScheduledMessage_leaves_settled m :
  (∀ m0, messages w !! messageId = Some m0 → validate m0 = true) →
  messages w' !! messageId = Some m → status m ≠ Pending.
Proof.
  intros Hvalid.
  destruct (messages w !! messageId) as [m0|] eqn:Hm.
  - destruct (decide (status m0 = Pending)) as [Hst|Hst].
    + destruct (sendScheduledMessage_settles m0 Hm Hst (Hvalid m0 eq_refl))
        as (m' & Hw' & Hst' & _).
      rewrite Hw', lookup_insert_eq. intros [= <-].
      destruct Hst' as [-> | ->]; done.
    + cbn [after]. rewrite sendScheduledMessage_skips; [cbn|]; congruence.
  - cbn [after]. rewrite sendScheduledMessage_skips; [cbn|]; congruence.
Qed.

(** One call posts at most one message. *)
Lemma sendScheduledMessage_posts_once :
  (posts (calls w') ≤ S (posts (calls w)))%nat.
Proof.
  destruct (messages w !! messageId) as [m0|] eqn:Hm.
  - destruct (decide (status m0 = Pending)) as [Hst|Hst].
    + by destruct (sendScheduledMessage_attempt m0 Hm Hst) as [? _].
    + cbn [after]. rewrite sendScheduledMessage_skips; [cbn; lia|congruence].
  - cbn [after]. rewrite sendScheduledMessage_skips; [cbn; lia|congruence].
Qed.

(** A record that is stored stays stored with the fields the schema checks:
    an attempt changes [status], [sentAt], [error] and [updatedAt] only. *)
Lemma sendScheduledMessage_keeps_valid j m :
  messages w !! j = Some m → validate m = true →
  ∃ m', messages w' !! j = Some m' ∧ validate m' = true.
Proof.
  intros Hm Hvalid. destruct (decide (j = messageId)) as [->|Hj];
    [|exists m; by rewrite sendScheduledMessage_other].
  destruct (decide (status m = Pending)) as [Hst|Hst];
    [|exists m; by rewrite (sendScheduledMessage_keeps_settled messageId m)].
  cbn [after]. rewrite (sendScheduledMessage_pending _ _ _ m) by done. cbn zeta.
  destruct (ensureValidToken_frame env w (userId m)) as [Hmsg _].
  unfold saved.
  destruct (run env (SlackService.ensureValidToken (userId m)) w) as [[tok|e] w1];
    cbn [snd] in Hmsg;
    [destruct (chat_postMessage env tok _ _) as [?|[[]|]]|];
    validate_as_loaded m; rewrite Hvalid; cbn; rewrite lookup_insert_eq; by eexists.
Qed.

End sendScheduledMessage_outcome.

(** ** Queries on the collection *)

Section find.
Variables (query : Message → bool) (order : SortOrder) (coll : gmap ObjectId Message).

Lemma find_Permutation :
  find query order coll ≡ₚ filter (λ kv, query kv.2 = true) (map_to_list coll).
Proof. unfold find. destruct order; apply merge_sort_Permutation. Qed.

(** [find] returns exactly the stored documents that match the query. *)
Lemma elem_of_find _id d :
  (_id, d) ∈ find query order coll ↔ coll !! _id = Some d ∧ query d = true.
Proof.
  rewrite find_Permutation, list_elem_of_filter, elem_of_map_to_list. cbn. tauto.
Qed.

(** Each document is returned once. *)
Lemma NoDup_find : NoDup (find query order coll).*1.
Proof.
  apply NoDup_fmap_fst.
  - intros _id d1 d2 [H1 _]%elem_of_find [H2 _]%elem_of_find. congruence.
  - rewrite find_Permutation. apply NoDup_filter, NoDup_map_to_list.
Qed.

End find.

(** [sort({ scheduledFor: 1 })]: earliest due first. *)
Lemma find_ascending_sorted query coll :
  Sorted scheduledFor_le (find query Ascending coll).
Proof.
  apply Sorted_merge_sort. intros a b. unfold scheduledFor_le. lia.
Qed.

(** ** The poller tick *)

Section tick.
Import ScheduledMessage.
Variable env : Env.

(** The loop catches nothing, and nothing escapes a delivery attempt. *)
Lemma send_each_returns l w : (run env (send_each l) w).1 = Returned tt.
Proof.
  revert w. induction l as [|x l IH]; intros w; [done|].
  unfold send_each. rewrite run_for_of_cons.
  pose proof (sendScheduledMessage_returns env w x.1) as Hx.
  destruct (run env (MessageScheduler.sendScheduledMessage x.1) w) as [[[]|e] w1];
    [apply IH|done].
Qed.

Lemma processScheduledMessages_run w :
  run env MessageScheduler.processScheduledMessages w =
  (Returned tt,
   (run env (send_each (find (due (clock env)) Ascending (messages w))) w).2).
Proof.
  unfold MessageScheduler.processScheduledMessages. rewrite run_try_catch.
  cbn [run perform mbind Prog_bind bind handle]. fold (due (clock env)).
  destruct (find _ _ _) as [|x l] eqn:Hl; [done|].
  cbn [length Nat.eqb]. fold (send_each (x :: l)).
  pose proof (send_each_returns (x :: l) w) as Hret.
  by destruct (run env (send_each (x :: l)) w) as [[[]|e] w'].
Qed.

(** Records that are no longer pending pass through the loop untouched. *)
Lemma send_each_keeps_settled l w j m :
  messages w !! j = Some m → status m ≠ Pending →
  messages (run env (send_each l) w).2 !! j = Some m.
Proof.
  revert w. induction l as [|x l IH]; intros w Hm Hst; [done|].
  unfold send_each. rewrite run_for_of_cons.
  pose proof (sendScheduledMessage_returns env w x.1) as Hx.
  pose proof (sendScheduledMessage_keeps_settled env w x.1 j m Hm Hst) as Hj.
  cbn [after] in Hj.
  destruct (run env (MessageScheduler.sendScheduledMessage x.1) w) as [[[]|e] w1];
    [|done].
  by apply IH.
Qed.

(** Every pending record on the list that passes the schema leaves the
    loop sent or failed, whatever happens to the records before it. *)
Lemma send_each_settles l w j m :
  NoDup l.*1 → j ∈ l.*1 →
  messages w !! j = Some m → status m = Pending → validate m = true →
  ∃ m', messages (run env (send_each l) w).2 !! j = Some m'
        ∧ (status m' = Sent ∨ status m' = Failed).
Proof.
  revert w. induction l as [|x l IH]; intros w Hnd Hin Hm Hst Hvalid.
  { by apply elem_of_nil in Hin. }
  rewrite fmap_cons in Hnd, Hin. apply NoDup_cons in Hnd as [Hx Hnd].
  unfold send_each. rewrite run_for_of_cons.
  pose proof (sendScheduledMessage_returns env w x.1) as Hret.
  destruct (decide (j = x.1)) as [->|Hj].
  - destruct (sendScheduledMessage_settles env w x.1 m Hm Hst Hvalid)
      as (m' & Hw' & Hst' & _).
    cbn [after] in Hw'.
    destruct (run env (MessageScheduler.sendScheduledMessage x.1) w) as [[[]|e] w1];
      [|done].
    cbn [snd] in Hw'. exists m'. split; [|done].
    apply send_each_keeps_settled.
    + by rewrite Hw', lookup_insert_eq.
    + destruct Hst' as [-> | ->]; done.
  - pose proof (sendScheduledMessage_other env w x.1 j Hj) as Hother.
    cbn [after] in Hother.
    destruct (run env (MessageScheduler.sendScheduledMessage x.1) w) as [[[]|e] w1];
      [|done].
    cbn [snd] in Hother. apply IH; [done| |congruence|done|done].
    apply elem_of_cons in Hin as [?|?]; done.
Qed.
End tick.

(** ** Claims about the credential refresh mediator *)

(** The document of a refresh passes the schema when the stored document
    did, the new token is not empty and the new expiry is a date. *)
Lemma refreshed_valid now r u userId :
  SlackUser.validate userId u = true →
  access_token r ≠ "" →
  (∀ seconds, truthy_number (expires_in r) = Some seconds →
              Date_valid (now + seconds * 1000) = true) →
  SlackUser.validate userId (refreshed now r u) = true.
Proof.
  unfold SlackUser.validate, refreshed, required.
  intros Hu Htoken%String.eqb_neq Hexpiry.
  repeat (apply andb_true_iff in Hu as [Hu ?]).
  destruct (truthy_number (expires_in r)) as [seconds|];
    destruct (truthy_string (refresh_token r)); cbn;
    rewrite ?Htoken, ?(Hexpiry seconds eq_refl); cbn;
    repeat (apply andb_true_iff; split); done.
Qed.

(** C5. [ensureValidToken] follows the algorithm of the specification:
    (1) without a stored credential it fails and touches nothing;
    (2) with no expiry, or an expiry strictly in the future, it returns the
        stored [accessToken], calls nothing and changes nothing;
    (3) expired and without a refresh token, it fails with the
        credential-expired error, calls nothing and changes nothing;
    (4) expired with a refresh token, it calls the refresh endpoint once; when
        the provider answers [ok] with an access token, and the credential
        passes its schema with the new values (the stored one did, the new
        token is not empty, the new expiry is within the range of a date), the
        stored credential gets the new [accessToken], the new [refreshToken]
        and expiry where the provider issued them, and the new token is
        returned; when the credential does not pass its schema with the new
        values, nothing is stored and no token is returned;
    (5) when the refresh call is rejected or answered [ok: false], the error
        is raised and both collections are unchanged;
    (6) whenever [ensureValidToken] fails for the owner of a pending record,
        [sendScheduledMessage] posts nothing for it, and marks it failed with
        that error when the record passes its schema. *)
Theorem ensureValidToken_algorithm (env : Env) (w : World) (userId : string) :
  let r := run env (SlackService.ensureValidToken userId) w in
  (users w !! userId = None → r = (Thrown "User not found", w))
  ∧ (∀ u, users w !! userId = Some u →
       (SlackUser.tokenExpiresAt u = None
        ∨ ∃ t, SlackUser.tokenExpiresAt u = Some t ∧ clock env < t) →
       r = (Returned (SlackUser.accessToken u), w))
  ∧ (∀ u t, users w !! userId = Some u →
       SlackUser.tokenExpiresAt u = Some t → Date_valid t = true → t ≤ clock env →
       truthy_string (SlackUser.refreshToken u) = None →
       r = (Thrown "Token expired and no refresh token available", w))
  ∧ (∀ u t rt resp, users w !! userId = Some u →
       SlackUser.tokenExpiresAt u = Some t → Date_valid t = true → t ≤ clock env →
       truthy_string (SlackUser.refreshToken u) = Some rt →
       oauth_v2_access env rt = Resolved resp → ok resp = true →
       (SlackUser.validate userId u = true →
        access_token resp ≠ "" →
        (∀ seconds, truthy_number (expires_in resp) = Some seconds →
                    Date_valid (clock env + seconds * 1000) = true) →
        ∃ u', r = (Returned (access_token resp),
                   {| messages := messages w;
                      users := <[userId := u']> (users w);
                      calls := calls w ++ [CallOAuthAccess rt] |})
              ∧ SlackUser.accessToken u' = access_token resp
              ∧ SlackUser.refreshToken u' =
                  match truthy_string (refresh_token resp) with
                  | Some new => Some new
                  | None => SlackUser.refreshToken u
                  end
              ∧ SlackUser.tokenExpiresAt u' =
                  match truthy_number (expires_in resp) with
                  | Some seconds => Some (clock env + seconds * 1000)
                  | None => SlackUser.tokenExpiresAt u
                  end)
       ∧ (SlackUser.validate userId (refreshed (clock env) resp u) = false →
          r = (Thrown (SlackUser_invalid env userId (refreshed (clock env) resp u)),
               {| messages := messages w; users := users w;
                  calls := calls w ++ [CallOAuthAccess rt] |})))
  ∧ (∀ u t rt, users w !! userId = Some u →
       SlackUser.tokenExpiresAt u = Some t → Date_valid t = true → t ≤ clock env →
       truthy_string (SlackUser.refreshToken u) = Some rt →
       ((∃ reason, oauth_v2_access env rt = Rejected reason)
        ∨ ∃ resp, oauth_v2_access env rt = Resolved resp ∧ ok resp = false) →
       r = (Thrown "Failed to refresh access token",
            {| messages := messages w; users := users w;
               calls := calls w ++ [CallOAuthAccess rt] |}))
  ∧ (∀ error messageId m, r.1 = Thrown error →
       messages w !! messageId = Some m →
       ScheduledMessage.userId m = userId → ScheduledMessage.status m = Pending →
       let w' := after env (SendNow messageId) w in
       posts (calls w') = posts (calls w)
       ∧ (ScheduledMessage.validate m = true →
          ∃ m', messages w' !! messageId = Some m'
                ∧ ScheduledMessage.status m' = Failed
                ∧ ScheduledMessage.error m' = Some error)).
Proof.
  cbn zeta. split_and!.
  - apply ensureValidToken_no_user.
  - apply ensureValidToken_not_expired.
  - intros u t Hu Ht Hdate Hle. apply (ensureValidToken_no_refresh_token _ _ _ u t);
      [done|done|]. by apply Date_le_true.
  - intros u t rt resp Hu Ht Hdate Hle Hrt Hresp Hok.
    rewrite (ensureValidToken_refresh _ _ _ u t rt) by (done || by apply Date_le_true).
    cbn zeta. rewrite Hresp, Hok. split.
    + intros Hvalid Htok Hexpiry.
      rewrite (refreshed_valid _ _ _ _ Hvalid Htok Hexpiry).
      eexists. split; [reflexivity|]. unfold refreshed.
      by destruct (truthy_number (expires_in resp)), (truthy_string (refresh_token resp)).
    + by intros ->.
  - intros u t rt Hu Ht Hdate Hle Hrt Hfail.
    rewrite (ensureValidToken_refresh _ _ _ u t rt) by (done || by apply Date_le_true).
    cbn zeta. destruct Hfail as [[reason ->]|(resp & -> & ->)]; done.
  - intros e messageId m Hr Hm Hu Hst. cbn [after].
    rewrite (sendScheduledMessage_pending _ _ _ m) by done. cbn zeta.
    destruct (ensureValidToken_frame env w userId) as [Hmsg Hposts].
    rewrite Hu.
    destruct (run env (SlackService.ensureValidToken userId) w) as [[tok|e'] w1];
      cbn [fst snd] in *; [done|]. injection Hr as ->.
    unfold saved. validate_as_loaded m.
    destruct (ScheduledMessage.validate m); (split; [done|]); [|done].
    intros _. eexists. split; [apply lookup_insert_eq|done].
Qed.

(** ** Claims about the poller and force-send *)

(** C2. One poller tick takes every record that is due ([scheduledFor] at
    or before the clock), pending and well-formed for its schema to [Sent]
    or [Failed]; the tick itself always returns.  The statement holds for
    every store and under every environment, so also when the attempts for
    other records of the same tick fail, or end in an exception because
    their [save()] is rejected. *)
Theorem poller_tick_settles_due_records (env : Env) (w : World)
    (_id : ObjectId) (m : Message) :
  messages w !! _id = Some m →
  ScheduledMessage.scheduledFor m ≤ clock env →
  ScheduledMessage.status m = Pending →
  ScheduledMessage.validate m = true →
  (run env MessageScheduler.processScheduledMessages w).1 = Returned tt
  ∧ ∃ m', messages (after env PollerTick w) !! _id = Some m'
          ∧ (ScheduledMessage.status m' = Sent ∨ ScheduledMessage.status m' = Failed).
Proof.
  intros Hm Hdue Hst Hvalid. cbn [after].
  rewrite processScheduledMessages_run. split; [done|]. cbn [snd].
  apply (send_each_settles env _ w _id m); [apply NoDup_find| |done|done|done].
  apply list_elem_of_fmap. exists (_id, m). split; [done|].
  apply elem_of_find. split; [done|]. unfold due.
  rewrite (proj2 (Z.leb_le _ _) Hdue). by rewrite bool_decide_eq_true_2.
Qed.

(** C7. Two calls of [sendScheduledMessage] on the same id, one after the
    other, the record under the id (if there is one) being well-formed for
    its schema: the second leaves the world as the first left it (no write,
    no call to Slack), because the record is then missing or no longer
    pending; together they post at most one message. *)
Theorem sendScheduledMessage_idempotent (env1 env2 : Env) (w : World)
    (messageId : ObjectId) :
  (∀ m, messages w !! messageId = Some m → ScheduledMessage.validate m = true) →
  let w1 := after env1 (SendNow messageId) w in
  let w2 := after env2 (SendNow messageId) w1 in
  w2 = w1
  ∧ (∀ m, messages w1 !! messageId = Some m → ScheduledMessage.status m ≠ Pending)
  ∧ (posts (calls w2) ≤ S (posts (calls w)))%nat.
Proof.
  intros Hvalid. cbn zeta. cbn [after].
  pose proof (λ m, sendScheduledMessage_leaves_settled env1 w messageId m Hvalid)
    as Hsettled.
  rewrite (sendScheduledMessage_skips env2) by done. cbn [snd].
  split_and!; [done|done|apply sendScheduledMessage_posts_once].
Qed.

(** ** Claims about cancel, intake and the listing *)

(** What [cancelScheduledMessage] does, by cases. *)
Lemma cancelScheduledMessage_run env w messageId userId :
  run env (MessageScheduler.cancelScheduledMessage messageId userId) w =
  match messages w !! messageId with
  | Some m =>
      if String.eqb (ScheduledMessage.userId m) userId
         && bool_decide (ScheduledMessage.status m = Pending)
      then if ScheduledMessage.validate m
           then (Returned true,
                 saved env messageId (ScheduledMessage.set_status Cancelled m) w)
           else (Thrown (ScheduledMessage_invalid env
                           (ScheduledMessage.set_status Cancelled m)), w)
      else (Returned false, w)
  | None => (Returned false, w)
  end.
Proof.
  unfold MessageScheduler.cancelScheduledMessage.
  rewrite run_rethrow. cbn -[ScheduledMessage.validate]. unfold findOne, saved.
  destruct (messages w !! messageId) as [m|]; [|done]. cbn -[ScheduledMessage.validate].
  destruct (_ && _); [|done]. cbn -[ScheduledMessage.validate].
  validate_as_loaded m. by destruct (ScheduledMessage.validate m).
Qed.


(** What [scheduleMessage] does, by cases. *)
Lemma scheduleMessage_run env w userId teamId channelId channelName message scheduledFor :
  run env (MessageScheduler.scheduleMessage
             userId teamId channelId channelName message scheduledFor) w =
  let d := ScheduledMessage.mk userId teamId channelId channelName message scheduledFor
             Pending (clock env) (clock env) None None in
  if Date_le scheduledFor (clock env)
  then (Thrown "Scheduled time must be in the future", w)
  else if ScheduledMessage.validate d
       then (Returned (fresh (dom (messages w))),
             set_messages (<[fresh (dom (messages w)) := d]> (messages w)) w)
       else (Thrown (ScheduledMessage_invalid env d), w).
Proof.
  unfold MessageScheduler.scheduleMessage. rewrite run_rethrow.
  cbn -[ScheduledMessage.validate].
  destruct (Date_le scheduledFor (clock env)); [done|]. cbn -[ScheduledMessage.validate].
  by destruct (ScheduledMessage.validate _).
Qed.

(** C9. A due time at or before the clock is rejected and nothing is
    stored; the error is that of the intake check, or, for a due time that is
    no date, that of the schema.  A due time strictly in the future, with
    fields that the record schema accepts (the five strings not empty, the
    body of at most 4000 UTF-16 code units, the due time a date), stores a
    new pending record and returns its id, which no stored record had.  A due
    time in the future with fields that the schema refuses is rejected with
    the validation error and nothing is stored. *)
Theorem scheduleMessage_intake (env : Env) (w : World)
    (userId teamId channelId channelName message : string) (scheduledFor : Date) :
  let r := run env (MessageScheduler.scheduleMessage
                      userId teamId channelId channelName message scheduledFor) w in
  let d := ScheduledMessage.mk userId teamId channelId channelName message scheduledFor
             Pending (clock env) (clock env) None None in
  (scheduledFor ≤ clock env →
     (∃ error, r = (Thrown error, w))
     ∧ (Date_valid scheduledFor = true →
        r = (Thrown "Scheduled time must be in the future", w)))
  ∧ (clock env < scheduledFor → ScheduledMessage.validate d = true →
     ∃ _id, messages w !! _id = None
            ∧ r = (Returned _id, set_messages (<[_id := d]> (messages w)) w))
  ∧ (clock env < scheduledFor → ScheduledMessage.validate d = false →
     r = (Thrown (ScheduledMessage_invalid env d), w)).
Proof.
  cbn zeta. rewrite scheduleMessage_run. cbn zeta. split_and!.
  - intros Hpast. unfold Date_le, ScheduledMessage.validate.
    cbn [ScheduledMessage.scheduledFor].
    rewrite (proj2 (Z.leb_le _ _) Hpast), andb_true_r.
    destruct (Date_valid scheduledFor); [by eauto|].
    rewrite andb_false_r. split; [by eauto|done].
  - intros Hfuture ->. rewrite (Date_le_later _ _ Hfuture).
    eexists. split; [|reflexivity].
    apply (not_elem_of_dom (D := gset ObjectId)), is_fresh.
  - intros Hfuture ->. by rewrite (Date_le_later _ _ Hfuture).
Qed.

Lemma getUserScheduledMessages_run env w userId :
  run env (MessageScheduler.getUserScheduledMessages userId) w =
  (Returned (listed <$> find (listable userId) Descending (messages w)), w).
Proof.
  unfold MessageScheduler.getUserScheduledMessages. by rewrite run_rethrow.
Qed.

Lemma listed_status_spec (s : Status) : s ∈ [Pending; Sent; Failed] ↔ s ≠ Cancelled.
Proof.
  rewrite !elem_of_cons, elem_of_nil. destruct s; intuition congruence.
Qed.

Lemma listable_spec userId d :
  listable userId d = true ↔
  ScheduledMessage.userId d = userId ∧ ScheduledMessage.status d ≠ Cancelled.
Proof.
  unfold listable.
  by rewrite andb_true_iff, String.eqb_eq, bool_decide_eq_true, listed_status_spec.
Qed.

Lemma filter_with_status_nil s (l : list Listed.item) :
  (∀ it, it ∈ l → Listed.status it ≠ s) →
  List.filter (Routes.with_status s) l = [].
Proof.
  induction l as [|it l IH]; intros Hl; [done|]. cbn.
  unfold Routes.with_status at 1.
  rewrite bool_decide_eq_false_2 by (apply Hl; left).
  apply IH. intros it' Hin. apply Hl. by right.
Qed.

(** The listing holds exactly the objects of the user's records that are
    not cancelled. *)
Lemma elem_of_listing userId coll it :
  it ∈ listed <$> find (listable userId) Descending coll ↔
  ∃ m, coll !! Listed.id it = Some m
       ∧ ScheduledMessage.userId m = userId
       ∧ ScheduledMessage.status m ≠ Cancelled
       ∧ it = listed (Listed.id it, m).
Proof.
  rewrite list_elem_of_fmap. split.
  - intros ([_id m] & -> & [Hm Hq]%elem_of_find). apply listable_spec in Hq.
    exists m. cbn. tauto.
  - intros (m & Hm & Hu & Hst & Hit). exists (Listed.id it, m).
    split; [done|]. apply elem_of_find. by rewrite listable_spec.
Qed.

Lemma listing_not_cancelled userId coll it :
  it ∈ listed <$> find (listable userId) Descending coll →
  Listed.status it ≠ Cancelled.
Proof. by intros (m & _ & _ & Hst & ->)%elem_of_listing. Qed.

(** C10. [getUserScheduledMessages] returns, without changing the store,
    exactly the objects of the user's records that are pending, sent or
    failed.  No returned object is cancelled, no cancelled record is
    returned although it is still stored, and the [cancelled] count that the
    stats handler takes from the listing is 0. *)
Theorem getUserScheduledMessages_omits_cancelled (env : Env) (w : World)
    (userId : string) :
  ∃ l, run env (MessageScheduler.getUserScheduledMessages userId) w = (Returned l, w)
       ∧ (∀ it, it ∈ l ↔
                ∃ m, messages w !! Listed.id it = Some m
                     ∧ ScheduledMessage.userId m = userId
                     ∧ ScheduledMessage.status m ∈ [Pending; Sent; Failed]
                     ∧ it = listed (Listed.id it, m))
       ∧ (∀ it, it ∈ l → Listed.status it ≠ Cancelled)
       ∧ (∀ _id m, messages w !! _id = Some m →
                   ScheduledMessage.status m = Cancelled →
                   _id ∉ Listed.id <$> l)
       ∧ ∃ s, run env (Routes.stats userId) w = (Returned (Routes.Success s), w)
              ∧ Routes.cancelled s = 0%nat.
Proof.
  eexists. split; [apply getUserScheduledMessages_run|]. split_and!.
  - intros it. rewrite elem_of_listing. f_equiv. intros m.
    by rewrite listed_status_spec.
  - apply listing_not_cancelled.
  - intros _id m Hm Hst (it & -> & Hin)%list_elem_of_fmap.
    apply elem_of_listing in Hin as (m' & Hm' & _ & Hst' & _). congruence.
  - eexists. unfold Routes.stats. rewrite run_try_catch, run_bind.
    rewrite getUserScheduledMessages_run. cbn [run].
    split; [reflexivity|]. cbn [Routes.cancelled].
    rewrite filter_with_status_nil; [done|]. apply listing_not_cancelled.
Qed.

(** ** The status state machine *)

Section monotone.
Import ScheduledMessage.

Lemma sendScheduledMessage_keeps_record env w messageId j :
  is_Some (messages w !! j) →
  is_Some (messages (after env (SendNow messageId) w) !! j).
Proof.
  intros Hj. destruct (decide (j = messageId)) as [->|Hne];
    [|by rewrite sendScheduledMessage_other].
  destruct Hj as [m Hm]. destruct (decide (status m = Pending)) as [Hst|Hst].
  - destruct (sendScheduledMessage_attempt env w messageId m Hm Hst) as [_ Hw].
    destruct (validate m); [|by rewrite Hw, Hm].
    destruct Hw as (m' & -> & _). by rewrite lookup_insert_eq.
  - by rewrite (sendScheduledMessage_keeps_settled env w messageId messageId m).
Qed.

Lemma send_each_keeps_record env l w j :
  is_Some (messages w !! j) →
  is_Some (messages (run env (send_each l) w).2 !! j).
Proof.
  revert w. induction l as [|x l IH]; intros w Hj; [done|].
  unfold send_each. rewrite run_for_of_cons.
  pose proof (sendScheduledMessage_returns env w x.1) as Hret.
  pose proof (sendScheduledMessage_keeps_record env w x.1 j Hj) as Hx.
  cbn [after] in Hx.
  destruct (run env (MessageScheduler.sendScheduledMessage x.1) w) as [[[]|e] w1];
    [|done].
  by apply IH.
Qed.

(** One operation never removes a record. *)
Lemma after_keeps_record env op w j :
  is_Some (messages w !! j) → is_Some (messages (after env op w) !! j).
Proof.
  intros Hj. destruct op as [u t c n b s|i u|i|]; cbn [after].
  - rewrite scheduleMessage_run. cbn zeta.
    destruct (Date_le s (clock env)); [done|]. destruct (validate _); [|done].
    cbn. rewrite lookup_insert_ne; [done|]. intros <-.
    apply (elem_of_dom (D := gset ObjectId)) in Hj. by apply is_fresh in Hj.
  - rewrite cancelScheduledMessage_run. unfold saved.
    destruct (messages w !! i) as [mi|]; [|done].
    destruct (_ && _); [|done]. validate_as_loaded mi.
    destruct (validate mi); [|done]. cbn.
    destruct (decide (i = j)) as [->|?];
      [by rewrite lookup_insert_eq|by rewrite lookup_insert_ne].
  - by apply sendScheduledMessage_keeps_record.
  - rewrite processScheduledMessages_run. by apply send_each_keeps_record.
Qed.

(** One operation leaves every record that is not pending as it is. *)
Lemma after_keeps_settled env op w j m :
  messages w !! j = Some m → status m ≠ Pending →
  messages (after env op w) !! j = Some m.
Proof.
  intros Hm Hst. destruct op as [u t c n b s|i u|i|]; cbn [after].
  - rewrite scheduleMessage_run. cbn zeta.
    destruct (Date_le s (clock env)); [done|]. destruct (validate _); [|done].
    cbn. rewrite lookup_insert_ne; [done|]. intros <-.
    assert (is_Some (messages w !! fresh (dom (messages w)))) as Hin by eauto.
    apply (elem_of_dom (D := gset ObjectId)) in Hin. by apply is_fresh in Hin.
  - rewrite cancelScheduledMessage_run. unfold saved.
    destruct (messages w !! i) as [mi|] eqn:Hi; [|done].
    destruct (String.eqb _ _); [|done].
    destruct (decide (status mi = Pending)) as [Hp|Hp];
      [|by rewrite bool_decide_eq_false_2].
    rewrite bool_decide_eq_true_2 by done. cbn [andb]. validate_as_loaded mi.
    destruct (validate mi); [|done]. cbn.
    rewrite lookup_insert_ne; [done|]. congruence.
  - by apply sendScheduledMessage_keeps_settled.
  - rewrite processScheduledMessages_run. by apply send_each_keeps_settled.
Qed.

Lemma history_keeps_record ops w j :
  is_Some (messages w !! j) → is_Some (messages (history ops w) !! j).
Proof.
  revert w. induction ops as [|[env op] ops IH]; intros w Hj; [done|].
  cbn. apply IH. by apply after_keeps_record.
Qed.

Lemma history_keeps_settled ops w j m :
  messages w !! j = Some m → status m ≠ Pending →
  messages (history ops w) !! j = Some m.
Proof.
  revert w. induction ops as [|[env op] ops IH]; intros w Hm Hst; [done|].
  cbn. apply IH; [|done]. by apply after_keeps_settled.
Qed.

End monotone.

(** X23. Over any sequence of engine operations (schedule, cancel,
    force-send, poller tick) in which each operation has run to completion
    before the next one starts, under its own clock and Slack answers: a
    stored record stays stored; a record that is sent, failed or cancelled is
    never written again; so whenever the status of a record differs before
    and after, it was pending before and is terminal after. *)
Theorem status_transitions_monotone (ops : list (Env * Operation)) (w : World)
    (_id : ObjectId) (m : Message) :
  messages w !! _id = Some m →
  (∃ m', messages (history ops w) !! _id = Some m')
  ∧ (ScheduledMessage.status m ≠ Pending → messages (history ops w) !! _id = Some m)
  ∧ (∀ m', messages (history ops w) !! _id = Some m' →
           ScheduledMessage.status m' ≠ ScheduledMessage.status m →
           ScheduledMessage.status m = Pending ∧ ScheduledMessage.status m' ≠ Pending).
Proof.
  intros Hm.
  pose proof (history_keeps_settled ops w _id m Hm) as Hsettled.
  split_and!; [by apply history_keeps_record|done|].
  intros m' Hm' Hchanged.
  destruct (decide (ScheduledMessage.status m = Pending)) as [Hp|Hp].
  - split; [done|congruence].
  - rewrite Hsettled in Hm' by done. congruence.
Qed.

(** ** What is stored passes the schema *)

Section schema.
Import ScheduledMessage.

Lemma send_each_keeps_valid env l w j m :
  messages w !! j = Some m → validate m = true →
  ∃ m', messages (run env (send_each l) w).2 !! j = Some m' ∧ validate m' = true.
Proof.
  revert w m. induction l as [|x l IH]; intros w m Hm Hvalid; [by exists m|].
  unfold send_each. rewrite run_for_of_cons.
  pose proof (sendScheduledMessage_returns env w x.1) as Hret.
  destruct (sendScheduledMessage_keeps_valid env w x.1 j m Hm Hvalid) as (m1 & Hm1 & Hv1).
  cbn [after] in Hm1.
  destruct (run env (MessageScheduler.sendScheduledMessage x.1) w) as [[[]|e] w1];
    [|done].
  by apply (IH w1 m1).
Qed.

(** No record appears in a delivery attempt or in a tick. *)
Lemma sendScheduledMessage_no_new_record env w messageId j :
  messages w !! j = None → messages (after env (SendNow messageId) w) !! j = None.
Proof.
  intros Hj. destruct (decide (j = messageId)) as [->|Hne];
    [|by rewrite sendScheduledMessage_other].
  cbn [after]. rewrite sendScheduledMessage_skips; [done|congruence].
Qed.

Lemma send_each_no_new_record env l w j :
  messages w !! j = None → messages (run env (send_each l) w).2 !! j = None.
Proof.
  revert w. induction l as [|x l IH]; intros w Hj; [done|].
  unfold send_each. rewrite run_for_of_cons.
  pose proof (sendScheduledMessage_returns env w x.1) as Hret.
  pose proof (sendScheduledMessage_no_new_record env w x.1 j Hj) as Hx.
  cbn [after] in Hx.
  destruct (run env (MessageScheduler.sendScheduledMessage x.1) w) as [[[]|e] w1];
    [|done].
  by apply IH.
Qed.

Lemma after_schema_valid env op w : schema_valid w → schema_valid (after env op w).
Proof.
  intros Hw. destruct op as [u t c n b s|i u|i|]; cbn [after].
  - rewrite scheduleMessage_run. cbn zeta.
    destruct (Date_le s (clock env)); [done|].
    destruct (validate _) eqn:Hd; [|done].
    intros j mj. cbn. intros [[_ <-]|[_ Hj]]%lookup_insert_Some; [done|by apply (Hw j)].
  - rewrite cancelScheduledMessage_run. unfold saved.
    destruct (messages w !! i) as [mi|] eqn:Hi; [|done].
    destruct (_ && _); [|done]. validate_as_loaded mi.
    destruct (validate mi) eqn:Hmi; [|done]. cbn [snd].
    intros j mj. cbn [messages set_messages].
    intros [[_ <-]|[_ Hj]]%lookup_insert_Some; [done|by apply (Hw j)].
  - intros j mj Hj.
    destruct (messages w !! j) as [m|] eqn:Hm.
    + destruct (sendScheduledMessage_keeps_valid env w i j m Hm (Hw j m Hm))
        as (m' & Hm' & Hv'). cbn [after] in Hm'. congruence.
    + pose proof (sendScheduledMessage_no_new_record env w i j Hm) as Hnone.
      cbn [after] in Hnone. congruence.
  - rewrite processScheduledMessages_run. cbn [snd]. intros j mj Hj.
    destruct (messages w !! j) as [m|] eqn:Hm.
    + destruct (send_each_keeps_valid env (find (due (clock env)) Ascending (messages w))
                  w j m Hm (Hw j m Hm)) as (m' & Hm' & Hv'). congruence.
    + by rewrite send_each_no_new_record in Hj.
Qed.

End schema.

(** X24. Every stored record passes the schema of the collection: this
    holds of the empty store, and every engine operation (schedule, cancel,
    force-send, poller tick) keeps it, because each [save()] validates the
    whole document and an attempt or a cancel changes no field that the
    schema checks. *)
Theorem stored_records_pass_the_schema (ops : list (Env * Operation)) (w : World) :
  schema_valid w → schema_valid (history ops w).
Proof.
  revert w. induction ops as [|[env op] ops IH]; intros w Hw; [done|].
  cbn. apply IH. by apply after_schema_valid.
Qed.

(** ** The world at the moment of the post *)

Lemma world_at_post_bind env {A B} (p : Prog A) (f : A → Prog B) w :
  world_at_post env (p ≫= f) w =
  match world_at_post env p w with
  | Some w' => Some w'
  | None =>
      match run env p w with
      | (Returned a, w') => world_at_post env (f a) w'
      | (Thrown _, _) => None
      end
  end.
Proof.
  revert w. induction p as [a|msg|X e k IH]; intros w; try done.
  cbn. destruct (posts_message e); [done|].
  destruct (handle env e w) as [x w']. apply IH.
Qed.

Lemma world_at_post_try_catch env {A} (p : Prog A) handler w :
  world_at_post env (try_catch p handler) w =
  match world_at_post env p w with
  | Some w' => Some w'
  | None =>
      match run env p w with
      | (Returned _, _) => None
      | (Thrown msg, w') => world_at_post env (handler msg) w'
      end
  end.
Proof.
  revert w. induction p as [a|msg|X e k IH]; intros w; try done.
  cbn. destruct (posts_message e); [done|].
  destruct (handle env e w) as [x w']. apply IH.
Qed.

(** The token check never posts. *)
Lemma ensureValidToken_never_posts env w userId :
  world_at_post env (SlackService.ensureValidToken userId) w = None.
Proof.
  unfold SlackService.ensureValidToken. cbn.
  destruct (users w !! userId) as [u|]; [|done].
  destruct (SlackUser.tokenExpiresAt u) as [t|]; [|done]. cbn.
  destruct (Date_le t (clock env)); [|done].
  destruct (truthy_string (SlackUser.refreshToken u)) as [rt|]; [|done]. cbn.
  destruct (oauth_v2_access env rt) as [?|r]; [done|]. cbn.
  destruct (ok r); [|done]. cbn -[SlackUser.validate].
  destruct (truthy_number (expires_in r)); cbn -[SlackUser.validate];
    by destruct (SlackUser.validate _ _).
Qed.

(** Where [sendScheduledMessage] posts: for a pending record whose owner's
    token check succeeds, in the world that check leaves. *)
Lemma sendScheduledMessage_world_at_post env w messageId :
  world_at_post env (MessageScheduler.sendScheduledMessage messageId) w =
  match messages w !! messageId with
  | Some m =>
      if bool_decide (ScheduledMessage.status m = Pending) then
        match run env (SlackService.ensureValidToken (ScheduledMessage.userId m)) w with
        | (Returned _, w1) => Some w1
        | (Thrown _, _) => None
        end
      else None
  | None => None
  end.
Proof.
  unfold MessageScheduler.sendScheduledMessage.
  rewrite world_at_post_try_catch.
  cbn [world_at_post run perform mbind Prog_bind bind handle posts_message].
  destruct (messages w !! messageId) as [m|]; [|done].
  destruct (bool_decide (ScheduledMessage.status m = Pending)); [|done].
  cbn [negb world_at_post run perform mbind Prog_bind bind handle posts_message].
  rewrite run_try_catch, world_at_post_try_catch.
  rewrite (world_at_post_bind env (SlackService.ensureValidToken _)).
  rewrite (run_bind env (SlackService.ensureValidToken _)).
  rewrite ensureValidToken_never_posts.
  cbn [ScheduledMessage.userId ScheduledMessage.set_sentAt ScheduledMessage.set_status].
  destruct (run env (SlackService.ensureValidToken _) w) as [[tok|e] w1]; [done|].
  cbn -[ScheduledMessage.validate]. by destruct (ScheduledMessage.validate _).
Qed.

(** X1. At the moment [sendScheduledMessage] issues [chat.postMessage], the
    message collection is as it was when the call started: the record it is
    about to post is still stored as pending. *)
Theorem sendScheduledMessage_posts_before_saving (env : Env) (w w1 : World)
    (messageId : ObjectId) :
  world_at_post env (MessageScheduler.sendScheduledMessage messageId) w = Some w1 →
  messages w1 = messages w
  ∧ ∃ m, messages w1 !! messageId = Some m ∧ ScheduledMessage.status m = Pending.
Proof.
  rewrite sendScheduledMessage_world_at_post.
  destruct (messages w !! messageId) as [m|] eqn:Hm; [|done].
  destruct (decide (ScheduledMessage.status m = Pending)) as [Hst|Hst];
    [|by rewrite bool_decide_eq_false_2].
  rewrite bool_decide_eq_true_2 by done.
  destruct (ensureValidToken_frame env w (ScheduledMessage.userId m)) as [Hmsg _].
  destruct (run env (SlackService.ensureValidToken _) w) as [[tok|e] w']; [|done].
  intros [= ->]. cbn [snd] in Hmsg. rewrite Hmsg. eauto.
Qed.

(** ** The [sentAt] stamp *)

Section stamps.
Import ScheduledMessage.

Lemma sendScheduledMessage_well_stamped env w messageId :
  well_stamped w → well_stamped (after env (SendNow messageId) w).
Proof.
  intros Hw j mj. destruct (decide (j = messageId)) as [->|Hne].
  - destruct (messages w !! messageId) as [m|] eqn:Hm.
    + destruct (decide (status m = Pending)) as [Hst|Hst].
      * destruct (sendScheduledMessage_attempt env w messageId m Hm Hst) as [_ Hw'].
        destruct (validate m); [|rewrite Hw'; apply Hw].
        destruct Hw' as (m' & -> & Hst' & Hsent & _).
        rewrite lookup_insert_eq. intros [= <-]. unfold stamp_matches_status.
        rewrite Hsent. split; eauto.
      * rewrite (sendScheduledMessage_keeps_settled env w messageId messageId m)
          by done.
        intros [= <-]. by apply (Hw messageId).
    + cbn [after]. rewrite sendScheduledMessage_skips by congruence. apply Hw.
  - rewrite sendScheduledMessage_other by done. apply Hw.
Qed.

Lemma send_each_well_stamped env l w :
  well_stamped w → well_stamped (run env (send_each l) w).2.
Proof.
  revert w. induction l as [|x l IH]; intros w Hw; [done|].
  unfold send_each. rewrite run_for_of_cons.
  pose proof (sendScheduledMessage_returns env w x.1) as Hret.
  pose proof (sendScheduledMessage_well_stamped env w x.1 Hw) as Hx.
  cbn [after] in Hx.
  destruct (run env (MessageScheduler.sendScheduledMessage x.1) w) as [[[]|e] w1];
    [|done].
  by apply IH.
Qed.

Lemma after_well_stamped env op w :
  well_stamped w → well_stamped (after env op w).
Proof.
  intros Hw. destruct op as [u t c n b s|i u|i|]; cbn [after].
  - rewrite scheduleMessage_run. cbn zeta.
    destruct (Date_le s (clock env)); [done|]. destruct (validate _); [|done].
    intros j mj. cbn. intros [[_ <-]|[_ Hj]]%lookup_insert_Some; [|by apply (Hw j)].
    unfold stamp_matches_status. cbn.
    split; [by intros [? [=]]|by intros [[=]|[=]]].
  - rewrite cancelScheduledMessage_run. unfold saved.
    destruct (messages w !! i) as [mi|] eqn:Hi; [|done].
    destruct (String.eqb _ _); [|done].
    destruct (decide (status mi = Pending)) as [Hp|Hp];
      [|by rewrite bool_decide_eq_false_2].
    rewrite bool_decide_eq_true_2 by done. cbn [andb]. validate_as_loaded mi.
    destruct (validate mi); [|done]. cbn [snd].
    intros j mj. cbn [messages set_messages].
    intros [[_ <-]|[_ Hj]]%lookup_insert_Some; [|by apply (Hw j)].
    pose proof (Hw i mi Hi) as Hmi. unfold stamp_matches_status in *. cbn.
    rewrite Hmi, Hp. split; [by intros [[=]|[=]]|by intros [[=]|[=]]].
  - by apply sendScheduledMessage_well_stamped.
  - rewrite processScheduledMessages_run. by apply send_each_well_stamped.
Qed.

End stamps.

(** X2. Over any sequence of engine operations, from a store in which it
    holds, [sentAt] is set exactly on the
    records whose status is [Sent] or [Failed]: a delivery attempt stamps
    the record before it posts, and the stamp stays when the attempt fails. *)
Theorem sentAt_marks_delivery_attempts (ops : list (Env * Operation)) (w : World) :
  well_stamped w → well_stamped (history ops w).
Proof.
  revert w. induction ops as [|[env op] ops IH]; intros w Hw; [done|].
  cbn. apply IH. by apply after_well_stamped.
Qed.

(** ** What the stats handler counts *)

Section stats.
Import ScheduledMessage.

Lemma length_filter_Permutation {A} (f : A → bool) (l l' : list A) :
  l ≡ₚ l' → length (List.filter f l) = length (List.filter f l').
Proof.
  induction 1 as [|x l l' _ IH|x y l|l l' l'' _ IH1 _ IH2]; cbn.
  - done.
  - destruct (f x); cbn; congruence.
  - by destruct (f x), (f y).
  - congruence.
Qed.

Lemma filter_bool {A} (f : A → bool) (l : list A) :
  filter (λ x, f x = true) l = List.filter f l.
Proof.
  induction l as [|x l IH]; [done|]. rewrite filter_cons, IH. cbn.
  destruct (f x); [by rewrite decide_True|by rewrite decide_False].
Qed.

Lemma filter_listed (s : Status) (l : list (ObjectId * Message)) :
  length (List.filter (Routes.with_status s) (listed <$> l))
  = length (List.filter (λ kv, bool_decide (status kv.2 = s)) l).
Proof.
  induction l as [|kv l IH]; [done|]. cbn.
  unfold Routes.with_status at 1. cbn.
  destruct (bool_decide (status kv.2 = s)); cbn; congruence.
Qed.

(** The handler's count for a status that the listing admits. *)
Lemma count_listed userId s coll :
  s ≠ Cancelled →
  length (List.filter (Routes.with_status s)
            (listed <$> find (listable userId) Descending coll))
  = count_records userId s coll.
Proof.
  intros Hs. rewrite filter_listed.
  rewrite (length_filter_Permutation _ _ _ (find_Permutation _ _ _)).
  rewrite filter_bool. unfold count_records.
  induction (map_to_list coll) as [|kv l IH]; [done|]. cbn.
  unfold listable at 1.
  destruct (String.eqb (ScheduledMessage.userId kv.2) userId); cbn; [|done].
  destruct (decide (status kv.2 = s)) as [Hst|Hst].
  - rewrite !bool_decide_eq_true_2; [|done|rewrite Hst; by apply listed_status_spec].
    cbn. rewrite bool_decide_eq_true_2 by done. cbn. congruence.
  - rewrite (bool_decide_eq_false_2 (status kv.2 = s)) by done.
    destruct (bool_decide (status kv.2 ∈ _)); cbn; [|done].
    by rewrite bool_decide_eq_false_2.
Qed.

Lemma length_by_status (l : list Listed.item) :
  (∀ it, it ∈ l → Listed.status it ≠ Cancelled) →
  length l = (length (List.filter (Routes.with_status Pending) l)
              + length (List.filter (Routes.with_status Sent) l)
              + length (List.filter (Routes.with_status Failed) l))%nat.
Proof.
  unfold Routes.with_status.
  induction l as [|it l IH]; intros Hl; [done|].
  assert (Listed.status it ≠ Cancelled) as Hit by (apply Hl; left).
  specialize (IH (λ it' Hin, Hl it' (list_elem_of_further _ _ _ Hin))).
  cbn. destruct (Listed.status it); [| | |done];
    repeat case_bool_decide; try done; cbn; lia.
Qed.

End stats.

(** X3. The stats handler answers, without changing the store: for [pending],
    [sent] and [failed] the number of the user's stored records in that
    status, for [cancelled] always 0, and for [total] the sum of the three
    counts, so cancelled records are not part of the total. *)
Theorem stats_counts_the_listing (env : Env) (w : World) (userId : string) :
  ∃ s, run env (Routes.stats userId) w = (Returned (Routes.Success s), w)
       ∧ Routes.pending s = count_records userId Pending (messages w)
       ∧ Routes.sent s = count_records userId Sent (messages w)
       ∧ Routes.failed s = count_records userId Failed (messages w)
       ∧ Routes.cancelled s = 0%nat
       ∧ Routes.total s = (Routes.pending s + Routes.sent s + Routes.failed s)%nat.
Proof.
  eexists. unfold Routes.stats.
  rewrite run_try_catch, run_bind, getUserScheduledMessages_run. cbn [run].
  split; [reflexivity|].
  cbn [Routes.pending Routes.sent Routes.failed Routes.cancelled Routes.total].
  rewrite (length_by_status _ (listing_not_cancelled userId (messages w))).
  rewrite !count_listed by done.
  rewrite filter_with_status_nil by apply listing_not_cancelled. done.
Qed.

(** ** Where the code departs from the specification *)

(** C1. The status written "to prevent duplicate processing" is set on
    the loaded document only; [save()] runs after the Slack call.  With one
    pending record: (a) when the call awaits [chat.postMessage], the stored
    record is still pending and has no [sentAt]; (b) a second call started at
    that moment passes the same check, and when both have settled the one
    record has been posted twice; (c) a cancel handled at that moment
    succeeds and stores the record as cancelled, and the delivery that was
    in flight then stores it as sent. *)
Theorem claim_is_not_stored_before_send :
  let env := Sample.slack_up 200 in
  let send := MessageScheduler.sendScheduledMessage 1%N in
  let cancel := MessageScheduler.cancelScheduledMessage 1%N "U1" ≫= λ _, Ret tt in
  (let '(pool, w) := run_schedule env [0; 0]%nat [send] Sample.one_pending in
   awaits_post <$> pool = [true]
   ∧ messages w !! 1%N = Some (Sample.record "U1" "C123" 100 Pending)
   ∧ calls w = [])
  ∧ (let '(pool, w) :=
       run_schedule env [0; 0; 1; 1; 0; 0; 1; 1]%nat [send; send] Sample.one_pending in
     settled <$> pool = [true; true]
     ∧ calls w = [CallChatPostMessage "xoxb-1" "C123" "hello";
                  CallChatPostMessage "xoxb-1" "C123" "hello"])
  ∧ (let '(pool1, w1) :=
       run_schedule env [0; 0; 1; 1]%nat [send; cancel] Sample.one_pending in
     let '(pool2, w2) := run_schedule env [0; 0]%nat pool1 w1 in
     (awaits_post <$> pool1 = [true; false] ∧ settled <$> pool1 = [false; true])
     ∧ ScheduledMessage.status <$> messages w1 !! 1%N = Some Cancelled
     ∧ settled <$> pool2 = [true; true]
     ∧ ScheduledMessage.status <$> messages w2 !! 1%N = Some Sent
     ∧ calls w2 = [CallChatPostMessage "xoxb-1" "C123" "hello"]).
Proof. by vm_compute. Qed.

(** C3. A record whose delivery failed keeps the [sentAt] stamp of the
    attempt: a message is scheduled at time 100 for time 200, the poller
    picks it up at time 300 while Slack cannot be reached, and the stored
    record is [Failed] with [sentAt] set. *)
Theorem failed_record_has_sentAt :
  let w := history
             [(Sample.slack_up 100, Schedule "U1" "T1" "C123" "general" "hello" 200);
              (Sample.slack_down 300, PollerTick)]
             Sample.nothing_scheduled in
  messages w !! 0%N =
  Some (ScheduledMessage.mk "U1" "T1" "C123" "general" "hello" 200
          Failed 100 300 (Some 300) (Some "Failed to send message")).
Proof. by vm_compute. Qed.

(** C4. For a user with 3 pending, 2 sent, 1 failed and 1 cancelled
    records the stats handler answers total 6 and cancelled 0: it counts the
    listing, which leaves cancelled records out. *)
Theorem stats_leaves_out_cancelled :
  (run (Sample.slack_up 1000) (Routes.stats "U1") Sample.seven_records).1 =
  Returned (Routes.Success
              {| Routes.total := 6; Routes.pending := 3; Routes.sent := 2;
                 Routes.failed := 1; Routes.cancelled := 0 |}).
Proof. by vm_compute. Qed.

(** C6. A record leaves the terminal state [Cancelled].  The poller tick
    has loaded the one pending record and awaits [chat.postMessage]; the
    owner's cancel is handled at that moment, succeeds and stores the record
    as cancelled; the tick then resumes and its [save()] stores the record as
    sent. *)
Theorem cancelled_record_becomes_sent :
  let env := Sample.slack_up 200 in
  let tick := MessageScheduler.processScheduledMessages in
  let cancel := MessageScheduler.cancelScheduledMessage 1%N "U1" ≫= λ _, Ret tt in
  let '(pool1, w1) :=
    run_schedule env [0; 0; 0; 1; 1]%nat [tick; cancel] Sample.one_pending in
  let '(pool2, w2) := run_schedule env [0; 0]%nat pool1 w1 in
  (awaits_post <$> pool1 = [true; false] ∧ settled <$> pool1 = [false; true])
  ∧ ScheduledMessage.status <$> messages w1 !! 1%N = Some Cancelled
  ∧ settled <$> pool2 = [true; true]
  ∧ ScheduledMessage.status <$> messages w2 !! 1%N = Some Sent.
Proof. by vm_compute. Qed.

(** ** The theorems at concrete inputs *)

(** Bob's token expired at 50; at time 100 the refresh is answered with a new
    token pair valid for 3600 seconds, which is stored and returned. *)
Lemma ensureValidToken_algorithm_witness :
  ∃ u', run (Sample.slack_up 100) (SlackService.ensureValidToken "U2") Sample.one_pending
        = (Returned "xoxe-2",
           {| messages := messages Sample.one_pending;
              users := <["U2" := u']> Sample.authorized;
              calls := [CallOAuthAccess "refresh-1"] |})
        ∧ SlackUser.accessToken u' = "xoxe-2"
        ∧ SlackUser.refreshToken u' = Some "refresh-2"
        ∧ SlackUser.tokenExpiresAt u' = Some 3600100.
Proof.
  destruct (ensureValidToken_algorithm (Sample.slack_up 100) Sample.one_pending "U2")
    as (_ & _ & _ & Hrefresh & _).
  refine (proj1 (Hrefresh Sample.bob 50 "refresh-1"
                   {| ok := true; error := None; access_token := "xoxe-2";
                      refresh_token := Some "refresh-2"; expires_in := Some 3600 |}
                   eq_refl eq_refl eq_refl _ eq_refl eq_refl eq_refl) eq_refl _ _).
  - vm_compute. discriminate.
  - discriminate.
  - intros seconds [= <-]. reflexivity.
Defined.

(** Two ticks.  In the first, the earlier record fails (channel C404 does
    not exist) and the later one is settled all the same.  In the second, the
    earlier record was stored without a channel name: its [save()] is
    rejected, twice, the exception ends its processing and it stays pending;
    the later record is settled all the same. *)
Lemma poller_tick_settles_due_records_witness :
  (∃ m', messages (after (Sample.slack_without_C404 200) PollerTick Sample.two_pending)
           !! 2%N = Some m'
         ∧ (ScheduledMessage.status m' = Sent ∨ ScheduledMessage.status m' = Failed))
  ∧ ScheduledMessage.status <$>
      messages (after (Sample.slack_up 200) PollerTick Sample.one_malformed) !! 1%N
    = Some Pending
  ∧ ∃ m', messages (after (Sample.slack_up 200) PollerTick Sample.one_malformed)
            !! 2%N = Some m'
          ∧ (ScheduledMessage.status m' = Sent ∨ ScheduledMessage.status m' = Failed).
Proof.
  split_and!.
  - apply (poller_tick_settles_due_records (Sample.slack_without_C404 200)
             Sample.two_pending 2%N (Sample.record "U1" "C123" 150 Pending));
      [reflexivity|vm_compute; discriminate|reflexivity|reflexivity].
  - reflexivity.
  - apply (poller_tick_settles_due_records (Sample.slack_up 200)
             Sample.one_malformed 2%N (Sample.record "U1" "C123" 150 Pending));
      [reflexivity|vm_compute; discriminate|reflexivity|reflexivity].
Defined.

(** A cancelled record survives a force-send, a tick, a new intake and a
    second cancel. *)
Lemma status_transitions_monotone_witness :
  let ops := [(Sample.slack_up 200, SendNow 1%N);
              (Sample.slack_up 300, PollerTick);
              (Sample.slack_up 400, Schedule "U1" "T1" "C123" "general" "again" 900);
              (Sample.slack_up 500, Cancel 1%N "U1")] in
  messages (history ops Sample.one_cancelled) !! 1%N
  = Some (Sample.record "U1" "C123" 100 Cancelled).
Proof.
  cbn zeta.
  refine (proj1 (proj2 (status_transitions_monotone _ Sample.one_cancelled 1%N
                          (Sample.record "U1" "C123" 100 Cancelled) _)) _).
  - reflexivity.
  - discriminate.
Defined.

(** Ann's pending record is sent by the first call; the second call changes
    nothing. *)
Lemma sendScheduledMessage_idempotent_witness :
  let w1 := after (Sample.slack_up 200) (SendNow 1%N) Sample.one_pending in
  after (Sample.slack_up 300) (SendNow 1%N) w1 = w1
  ∧ calls w1 = [CallChatPostMessage "xoxb-1" "C123" "hello"].
Proof.
  cbn zeta. split; [|reflexivity].
  refine (proj1 (sendScheduledMessage_idempotent (Sample.slack_up 200) (Sample.slack_up 300)
                   Sample.one_pending 1%N _)).
  intros m Hm. cbn [Sample.one_pending messages] in Hm.
  apply lookup_singleton_Some in Hm as [_ <-]. reflexivity.
Defined.


(** A valid message for a future time is stored under a fresh id; a body
    of 4001 characters for a future time is refused by the schema, and
    nothing is stored. *)
Lemma scheduleMessage_intake_witness :
  (∃ _id, messages Sample.one_pending !! _id = None
          ∧ run (Sample.slack_up 200)
                (MessageScheduler.scheduleMessage "U1" "T1" "C123" "general" "hello" 300)
                Sample.one_pending
            = (Returned _id,
               set_messages
                 (<[_id := ScheduledMessage.mk "U1" "T1" "C123" "general" "hello" 300
                             Pending 200 200 None None]>
                    (messages Sample.one_pending))
                 Sample.one_pending))
  ∧ run (Sample.slack_up 200)
        (MessageScheduler.scheduleMessage "U1" "T1" "C123" "general" Sample.long_body 300)
        Sample.one_pending
    = (Thrown "ScheduledMessage validation failed", Sample.one_pending).
Proof.
  split.
  - refine (proj1 (proj2 (scheduleMessage_intake (Sample.slack_up 200) Sample.one_pending
                            "U1" "T1" "C123" "general" "hello" 300)) _ _);
      reflexivity.
  - refine (proj2 (proj2 (scheduleMessage_intake (Sample.slack_up 200) Sample.one_pending
                            "U1" "T1" "C123" "general" Sample.long_body 300)) _ _);
      [reflexivity|by vm_compute].
Defined.

(** Bob's token is refreshed first: when the post is issued the refresh has
    been called and stored, and the record is still stored as pending. *)
Lemma sendScheduledMessage_posts_before_saving_witness :
  let w := set_messages {[ 1%N := Sample.record "U2" "C123" 100 Pending ]}
             Sample.one_pending in
  ∃ w1, world_at_post (Sample.slack_up 200) (MessageScheduler.sendScheduledMessage 1%N) w
        = Some w1
        ∧ calls w1 = [CallOAuthAccess "refresh-1"]
        ∧ SlackUser.accessToken <$> users w1 !! "U2" = Some "xoxe-2"
        ∧ messages w1 = messages w
        ∧ ∃ m, messages w1 !! 1%N = Some m ∧ ScheduledMessage.status m = Pending.
Proof.
  cbn zeta. eexists. split; [by vm_compute|].
  split; [reflexivity|]. split; [reflexivity|].
  apply (sendScheduledMessage_posts_before_saving (Sample.slack_up 200) _ _ 1%N).
  by vm_compute.
Defined.

(** From the empty store, the record of a scheduled message passes the
    schema after its delivery has failed. *)
Lemma stored_records_pass_the_schema_witness :
  ∃ m, messages
         (history
            [(Sample.slack_up 100, Schedule "U1" "T1" "C123" "general" "hello" 200);
             (Sample.slack_down 300, PollerTick)]
            Sample.nothing_scheduled) !! 0%N = Some m
       ∧ ScheduledMessage.validate m = true.
Proof.
  eexists. split; [vm_compute; reflexivity|].
  refine (stored_records_pass_the_schema
            [(Sample.slack_up 100, Schedule "U1" "T1" "C123" "general" "hello" 200);
             (Sample.slack_down 300, PollerTick)]
            Sample.nothing_scheduled _ 0%N _ _).
  - intros _id m Hm. done.
  - vm_compute. reflexivity.
Defined.

(** The record of the failed delivery above carries the stamp its status
    calls for. *)
Lemma sentAt_marks_delivery_attempts_witness :
  ∃ m, messages
         (history
            [(Sample.slack_up 100, Schedule "U1" "T1" "C123" "general" "hello" 200);
             (Sample.slack_down 300, PollerTick)]
            Sample.nothing_scheduled) !! 0%N = Some m
       ∧ ScheduledMessage.status m = Failed
       ∧ stamp_matches_status m.
Proof.
  eexists. split; [vm_compute; reflexivity|]. split; [reflexivity|].
  refine (sentAt_marks_delivery_attempts
            [(Sample.slack_up 100, Schedule "U1" "T1" "C123" "general" "hello" 200);
             (Sample.slack_down 300, PollerTick)]
            Sample.nothing_scheduled _ 0%N _ _).
  - intros _id m Hm. done.
  - vm_compute. reflexivity.
Defined.

(** * Further properties of the engine *)

Local Open Scope list_scope.

(** ** What a tick posts and what it leaves alone *)

(** A token check adds at most the one refresh call to the log. *)
Lemma ensureValidToken_log env w userId :
  let w' := (run env (SlackService.ensureValidToken userId) w).2 in
  calls w' = calls w ∨ ∃ rt : string, calls w' = (calls w ++ [CallOAuthAccess rt])%list.
Proof.
  rewrite ensureValidToken_cases.
  destruct (users w !! userId) as [u|]; [|by left].
  destruct (SlackUser.tokenExpiresAt u) as [t|]; [|by left].
  destruct (Date_le t (clock env)); [|by left].
  destruct (truthy_string (SlackUser.refreshToken u)) as [rt|]; [|by left].
  right. exists rt. cbn zeta.
  by destruct (refresh_outcome _) as [r|]; [destruct (SlackUser.validate _ _)|].
Qed.

Section tick_log.
Import ScheduledMessage.
Variable env : Env.

(** The calls a delivery attempt adds: posts among them are for the record. *)
Lemma sendScheduledMessage_log w messageId m :
  messages w !! messageId = Some m →
  ∃ added, calls (after env (SendNow messageId) w) = (calls w ++ added)%list
           ∧ ∀ token channel text,
               CallChatPostMessage token channel text ∈ added →
               status m = Pending ∧ channel = channelId m ∧ text = message m.
Proof.
  intros Hm. cbn [after].
  destruct (decide (status m = Pending)) as [Hst|Hst]; cycle 1.
  { rewrite sendScheduledMessage_skips by congruence.
    exists []. rewrite app_nil_r. split; [done|]. by intros ??? ?%elem_of_nil. }
  rewrite (sendScheduledMessage_pending _ _ _ m) by done. cbn zeta.
  pose proof (ensureValidToken_log env w (userId m)) as Hlog. cbn zeta in Hlog.
  destruct (run env (SlackService.ensureValidToken (userId m)) w) as [[tok|e] w1];
    cbn [snd] in Hlog.
  - assert (∃ added, calls w1 ++ [CallChatPostMessage tok (channelId m) (message m)]
                     = calls w ++ added
                     ∧ ∀ token channel text,
                         CallChatPostMessage token channel text ∈ added →
                         status m = Pending ∧ channel = channelId m ∧ text = message m)
      as Hadded.
    { destruct Hlog as [-> | [rt ->]].
      - eexists. split; [reflexivity|]. by intros ??? [= -> -> ->]%list_elem_of_singleton.
      - eexists. split; [by rewrite <- app_assoc|]. cbn.
        intros ??? Hin. apply elem_of_cons in Hin as [[=]|Hin].
        by apply list_elem_of_singleton in Hin as [= -> -> ->]. }
    by destruct (chat_postMessage env tok _ _) as [?|[[]|]];
      cbn [snd]; rewrite calls_saved.
  - cbn [snd]. rewrite calls_saved. destruct Hlog as [-> | [rt ->]].
    + exists []. rewrite app_nil_r. split; [done|]. by intros ??? ?%elem_of_nil.
    + eexists. split; [reflexivity|]. by intros ??? [=]%list_elem_of_singleton.
Qed.

(** The loop over a list of stored records: what it posts and what it keeps. *)
Lemma send_each_log l w :
  NoDup l.*1 →
  (∀ _id m, (_id, m) ∈ l → messages w !! _id = Some m) →
  let w' := (run env (send_each l) w).2 in
  (∃ added, calls w' = (calls w ++ added)%list
            ∧ ∀ token channel text,
                CallChatPostMessage token channel text ∈ added →
                ∃ _id m, (_id, m) ∈ l ∧ status m = Pending
                         ∧ channel = channelId m ∧ text = message m)
  ∧ (∀ j, j ∉ l.*1 → messages w' !! j = messages w !! j).
Proof.
  revert w. induction l as [|[i m] l IH]; intros w Hnd Hl.
  { cbn. split; [|done]. exists []. rewrite app_nil_r. split; [done|].
    by intros ??? ?%elem_of_nil. }
  rewrite fmap_cons in Hnd. apply NoDup_cons in Hnd as [Hi Hnd]. cbn [fst] in Hi.
  cbn zeta. unfold send_each. rewrite run_for_of_cons. cbn [fst].
  pose proof (sendScheduledMessage_returns env w i) as Hret.
  assert (messages w !! i = Some m) as Hm by (apply Hl; left).
  destruct (sendScheduledMessage_log w i m Hm) as (added1 & Hcalls1 & Hposts1).
  pose proof (sendScheduledMessage_other env w i) as Hother.
  cbn [after] in Hcalls1, Hother.
  destruct (run env (MessageScheduler.sendScheduledMessage i) w) as [[[]|e] w1];
    [|done].
  cbn [snd] in Hcalls1, Hother.
  destruct (IH w1 Hnd) as [(added2 & Hcalls2 & Hposts2) Hkeep].
  { intros j mj Hin. rewrite Hother.
    - apply Hl. by right.
    - intros ->. apply Hi. apply list_elem_of_fmap. by exists (i, mj). }
  fold (send_each l). split.
  - exists (added1 ++ added2). rewrite Hcalls2, Hcalls1, app_assoc. split; [done|].
    intros token channel text [Hin|Hin]%elem_of_app.
    + exists i, m. split; [left|by apply (Hposts1 token)].
    + destruct (Hposts2 token channel text Hin) as (j & mj & Hj & Hrest).
      exists j, mj. split; [by right|done].
  - intros j Hj. rewrite fmap_cons in Hj. cbn [fst] in Hj.
    apply not_elem_of_cons in Hj as [Hji Hjl]. by rewrite Hkeep, Hother.
Qed.

End tick_log.

(** X4. During a poller tick every [chat.postMessage] carries the channel
    and the text of a record that was stored as pending with its due time
    reached when the tick started; every record that was not pending, or
    not yet due, is left exactly as it was. *)
Theorem tick_posts_only_due_records (env : Env) (w : World) :
  let w' := after env PollerTick w in
  (∃ added, calls w' = (calls w ++ added)%list
            ∧ ∀ token channel text,
                CallChatPostMessage token channel text ∈ added →
                ∃ _id m, messages w !! _id = Some m
                         ∧ ScheduledMessage.status m = Pending
                         ∧ ScheduledMessage.scheduledFor m ≤ clock env
                         ∧ channel = ScheduledMessage.channelId m
                         ∧ text = ScheduledMessage.message m)
  ∧ (∀ _id m, messages w !! _id = Some m →
              (ScheduledMessage.status m ≠ Pending
               ∨ clock env < ScheduledMessage.scheduledFor m) →
              messages w' !! _id = Some m).
Proof.
  cbn zeta. cbn [after]. rewrite processScheduledMessages_run. cbn [snd].
  destruct (send_each_log env (find (due (clock env)) Ascending (messages w)) w)
    as [(added & Hcalls & Hposts) Hkeep].
  { apply NoDup_find. }
  { by intros _id m [Hm _]%elem_of_find. }
  split.
  - exists added. split; [done|]. intros token channel text Hin.
    destruct (Hposts token channel text Hin) as (_id & m & [Hm Hdue]%elem_of_find & Hrest).
    exists _id, m. unfold due in Hdue.
    apply andb_true_iff in Hdue as [Hle%Z.leb_le Hp%bool_decide_eq_true].
    destruct Hrest as (_ & Hchannel & Htext). by split_and!.
  - intros _id m Hm Hnot. rewrite Hkeep; [done|].
    intros ([j mj] & -> & [Hj Hdue]%elem_of_find)%list_elem_of_fmap.
    cbn in Hm. rewrite Hm in Hj. injection Hj as <-. unfold due in Hdue.
    apply andb_true_iff in Hdue as [Hle%Z.leb_le Hp%bool_decide_eq_true].
    destruct Hnot; [done|lia].
Qed.

(** X5. A tick that finds no record both pending and due does nothing: no
    call, no write, the world is unchanged. *)
Theorem tick_without_due_records (env : Env) (w : World) :
  (∀ _id m, messages w !! _id = Some m →
            ScheduledMessage.status m ≠ Pending
            ∨ clock env < ScheduledMessage.scheduledFor m) →
  run env MessageScheduler.processScheduledMessages w = (Returned tt, w).
Proof.
  intros Hnone. rewrite processScheduledMessages_run.
  destruct (find (due (clock env)) Ascending (messages w)) as [|[_id m] l] eqn:Hfind;
    [done|].
  assert ((_id, m) ∈ find (due (clock env)) Ascending (messages w)) as Hin
    by (rewrite Hfind; left).
  apply elem_of_find in Hin as [Hm Hdue]. unfold due in Hdue.
  apply andb_true_iff in Hdue as [Hle%Z.leb_le Hp%bool_decide_eq_true].
  destruct (Hnone _id m Hm); [done|lia].
Qed.

Lemma tick_without_due_records_witness :
  run (Sample.slack_up 50) MessageScheduler.processScheduledMessages Sample.one_pending
  = (Returned tt, Sample.one_pending).
Proof.
  apply tick_without_due_records. intros _id m Hm. right.
  cbn [Sample.one_pending messages] in Hm.
  apply lookup_singleton_Some in Hm as [_ <-]. reflexivity.
Defined.

(** ** How the operations compose *)

(** A tick leaves alone what is not both pending and due. *)
Lemma processScheduledMessages_keeps env w _id m :
  messages w !! _id = Some m →
  (ScheduledMessage.status m ≠ Pending
   ∨ clock env < ScheduledMessage.scheduledFor m) →
  messages (after env PollerTick w) !! _id = Some m.
Proof.
  intros Hm Hnot. cbn [after]. rewrite processScheduledMessages_run. cbn [snd].
  destruct (send_each_log env (find (due (clock env)) Ascending (messages w)) w)
    as [_ Hkeep].
  { apply NoDup_find. }
  { by intros j mj [Hj _]%elem_of_find. }
  rewrite Hkeep; [done|].
  intros ([j mj] & -> & [Hj Hdue]%elem_of_find)%list_elem_of_fmap.
  cbn in Hm. rewrite Hm in Hj. injection Hj as <-. unfold due in Hdue.
  apply andb_true_iff in Hdue as [Hle%Z.leb_le Hp%bool_decide_eq_true].
  destruct Hnot; [done|lia].
Qed.

(** X6. A message that intake accepts shows up in its owner's listing: the
    listing after [scheduleMessage] holds what it held before and, as a
    pending item under the returned id, the new message. *)
Theorem scheduled_message_is_listed (env env' : Env) (w : World)
    (userId teamId channelId channelName message : string) (scheduledFor : Date) :
  let d := ScheduledMessage.mk userId teamId channelId channelName message scheduledFor
             Pending (clock env) (clock env) None None in
  clock env < scheduledFor → ScheduledMessage.validate d = true →
  ∃ _id w1 before after_,
    run env (MessageScheduler.scheduleMessage
               userId teamId channelId channelName message scheduledFor) w
    = (Returned _id, w1)
    ∧ run env' (MessageScheduler.getUserScheduledMessages userId) w = (Returned before, w)
    ∧ run env' (MessageScheduler.getUserScheduledMessages userId) w1
      = (Returned after_, w1)
    ∧ Listed.status (listed (_id, d)) = Pending
    ∧ ∀ it, it ∈ after_ ↔ it = listed (_id, d) ∨ it ∈ before.
Proof.
  intros d Hfuture Hvalid. rewrite scheduleMessage_run. cbn zeta. fold d.
  rewrite (Date_le_later _ _ Hfuture), Hvalid.
  eexists _, _, _, _. split; [reflexivity|].
  rewrite !getUserScheduledMessages_run.
  split; [reflexivity|]. split; [reflexivity|]. split; [done|].
  assert (messages w !! fresh (dom (messages w)) = None) as Hfresh
    by apply (not_elem_of_dom (D := gset ObjectId)), is_fresh.
  intros it. rewrite !elem_of_listing. cbn [messages set_messages]. split.
  - intros (m & [[Hid <-]|[Hid Hm]]%lookup_insert_Some & Hu & Hst & Hit).
    + left. by rewrite Hit, <- Hid.
    + right. by exists m.
  - intros [-> | (m & Hm & Hu & Hst & Hit)].
    + exists d. cbn. by rewrite lookup_insert_eq.
    + exists m. rewrite lookup_insert_ne; [done|]. congruence.
Qed.

Lemma scheduled_message_is_listed_witness :
  ∃ _id w1 before after_,
    run (Sample.slack_up 200)
        (MessageScheduler.scheduleMessage "U1" "T1" "C123" "general" "again" 300)
        Sample.one_pending
    = (Returned _id, w1)
    ∧ run (Sample.slack_up 250) (MessageScheduler.getUserScheduledMessages "U1")
          Sample.one_pending = (Returned before, Sample.one_pending)
    ∧ run (Sample.slack_up 250) (MessageScheduler.getUserScheduledMessages "U1") w1
      = (Returned after_, w1)
    ∧ Listed.status
        (listed (_id, ScheduledMessage.mk "U1" "T1" "C123" "general" "again" 300
                        Pending 200 200 None None)) = Pending
    ∧ ∀ it, it ∈ after_ ↔
            it = listed (_id, ScheduledMessage.mk "U1" "T1" "C123" "general" "again" 300
                                Pending 200 200 None None)
            ∨ it ∈ before.
Proof.
  refine (scheduled_message_is_listed (Sample.slack_up 200) (Sample.slack_up 250)
            Sample.one_pending "U1" "T1" "C123" "general" "again" 300 _ _);
    reflexivity.
Defined.

(** X7. From intake to delivery: a message accepted for a due time is
    stored pending; a poller tick whose clock is before the due time leaves
    it exactly as stored, and a tick whose clock has reached the due time
    takes it to sent or failed. *)
Theorem scheduled_message_waits_for_due_time (env0 env1 : Env) (w : World)
    (userId teamId channelId channelName message : string) (scheduledFor : Date) :
  let d := ScheduledMessage.mk userId teamId channelId channelName message scheduledFor
             Pending (clock env0) (clock env0) None None in
  let w1 := after env0 (Schedule userId teamId channelId channelName message scheduledFor) w in
  clock env0 < scheduledFor → ScheduledMessage.validate d = true →
  ∃ _id, messages w !! _id = None ∧ messages w1 !! _id = Some d
         ∧ (clock env1 < scheduledFor →
            messages (after env1 PollerTick w1) !! _id = Some d)
         ∧ (scheduledFor ≤ clock env1 →
            ∃ m', messages (after env1 PollerTick w1) !! _id = Some m'
                  ∧ (ScheduledMessage.status m' = Sent
                     ∨ ScheduledMessage.status m' = Failed)).
Proof.
  intros d w1 Hfuture Hvalid. unfold w1. cbn [after].
  rewrite scheduleMessage_run. cbn zeta. fold d.
  rewrite (Date_le_later _ _ Hfuture), Hvalid. cbn [snd].
  exists (fresh (dom (messages w))).
  split; [apply (not_elem_of_dom (D := gset ObjectId)), is_fresh|].
  assert (messages (set_messages (<[fresh (dom (messages w)) := d]> (messages w)) w)
          !! fresh (dom (messages w)) = Some d) as Hd
    by apply lookup_insert_eq.
  split; [done|]. split.
  - intros Hearly. apply processScheduledMessages_keeps; [done|by right].
  - intros Hdue. cbn [after]. rewrite processScheduledMessages_run. cbn [snd].
    apply (send_each_settles env1 _ _ _ d); [apply NoDup_find| |done|done|done].
    apply list_elem_of_fmap. eexists (_, d). split; [done|].
    apply elem_of_find. split; [done|]. unfold due. cbn.
    by rewrite (proj2 (Z.leb_le _ _) Hdue).
Qed.

(** A message scheduled at 100 for 200: the tick at 150 leaves it as stored,
    the tick at 250 settles it. *)
Lemma scheduled_message_waits_for_due_time_witness :
  let d := ScheduledMessage.mk "U1" "T1" "C123" "general" "hello" 200
             Pending 100 100 None None in
  let w1 := after (Sample.slack_up 100)
              (Schedule "U1" "T1" "C123" "general" "hello" 200) Sample.nothing_scheduled in
  (∃ _id, messages w1 !! _id = Some d
          ∧ messages (after (Sample.slack_up 150) PollerTick w1) !! _id = Some d)
  ∧ (∃ _id m', messages w1 !! _id = Some d
               ∧ messages (after (Sample.slack_up 250) PollerTick w1) !! _id = Some m'
               ∧ (ScheduledMessage.status m' = Sent
                  ∨ ScheduledMessage.status m' = Failed)).
Proof.
  cbn zeta. split.
  - destruct (scheduled_message_waits_for_due_time
                (Sample.slack_up 100) (Sample.slack_up 150)
                Sample.nothing_scheduled "U1" "T1" "C123" "general" "hello" 200
                eq_refl eq_refl) as (_id & _ & Hstored & Hearly & _).
    exists _id. split; [done|]. by apply Hearly.
  - destruct (scheduled_message_waits_for_due_time
                (Sample.slack_up 100) (Sample.slack_up 250)
                Sample.nothing_scheduled "U1" "T1" "C123" "general" "hello" 200
                eq_refl eq_refl) as (_id & _ & Hstored & _ & Hdue).
    destruct Hdue as (m' & Hm' & Hst'); [by vm_compute|].
    by exists _id, m'.
Defined.

(** X8. A record that is well-formed for its schema cannot be both
    cancelled and delivered by calls that run one after the other: after a
    cancel that succeeded, a force-send of the same id changes nothing and
    posts nothing; after a force-send, a cancel of the same id answers
    [false] and changes nothing. *)
Theorem cancel_and_delivery_exclude_each_other (env1 env2 : Env) (w : World)
    (messageId : ObjectId) (userId : string) :
  (∀ m, messages w !! messageId = Some m → ScheduledMessage.validate m = true) →
  (∀ w1, run env1 (MessageScheduler.cancelScheduledMessage messageId userId) w
         = (Returned true, w1) →
         after env2 (SendNow messageId) w1 = w1
         ∧ ScheduledMessage.status <$> messages w1 !! messageId = Some Cancelled)
  ∧ run env2 (MessageScheduler.cancelScheduledMessage messageId userId)
        (after env1 (SendNow messageId) w)
    = (Returned false, after env1 (SendNow messageId) w).
Proof.
  intros Hvalid. split.
  - intros w1. rewrite cancelScheduledMessage_run.
    destruct (messages w !! messageId) as [m|] eqn:Hm; [|done].
    destruct (_ && _); [|done]. unfold saved. validate_as_loaded m.
    rewrite (Hvalid m eq_refl). intros [= <-]. cbn [after].
    assert (messages
              (set_messages
                 (<[messageId := ScheduledMessage.pre_save (clock env1)
                                   (ScheduledMessage.set_status Cancelled m)]> (messages w))
                 w) !! messageId
            = Some (ScheduledMessage.pre_save (clock env1)
                      (ScheduledMessage.set_status Cancelled m))) as Hstored
      by apply lookup_insert_eq.
    rewrite sendScheduledMessage_skips.
    + by rewrite Hstored.
    + intros m'. rewrite Hstored. by intros [= <-].
  - rewrite cancelScheduledMessage_run.
    pose proof (λ m, sendScheduledMessage_leaves_settled env1 w messageId m Hvalid)
      as Hsettled.
    destruct (messages (after env1 (SendNow messageId) w) !! messageId) as [m|]; [|done].
    by rewrite (bool_decide_eq_false_2 _ (Hsettled m eq_refl)), andb_false_r.
Qed.

(** Ann cancels her pending record and a force-send then finds nothing to
    do; and when the force-send comes first, her cancel answers [false]. *)
Lemma cancel_and_delivery_exclude_each_other_witness :
  (∃ w1, run (Sample.slack_up 50) (MessageScheduler.cancelScheduledMessage 1%N "U1")
             Sample.one_pending = (Returned true, w1)
         ∧ after (Sample.slack_up 200) (SendNow 1%N) w1 = w1
         ∧ ScheduledMessage.status <$> messages w1 !! 1%N = Some Cancelled)
  ∧ run (Sample.slack_up 200) (MessageScheduler.cancelScheduledMessage 1%N "U1")
        (after (Sample.slack_up 50) (SendNow 1%N) Sample.one_pending)
    = (Returned false, after (Sample.slack_up 50) (SendNow 1%N) Sample.one_pending).
Proof.
  destruct (cancel_and_delivery_exclude_each_other
              (Sample.slack_up 50) (Sample.slack_up 200) Sample.one_pending 1%N "U1")
    as [Hcancel Hsend].
  { intros m Hm. cbn [Sample.one_pending messages] in Hm.
    apply lookup_singleton_Some in Hm as [_ <-]. reflexivity. }
  split; [|exact Hsend].
  eexists. split; [by vm_compute|]. apply Hcancel. by vm_compute.
Defined.

(** ** The token after a refresh *)

Lemma truthy_string_Some s x :
  truthy_string s = Some x → s = Some x ∧ truthy_string (Some x) = Some x.
Proof.
  destruct s as [s|]; [|done]. cbn. destruct (String.eqb s "") eqn:Hs; [done|].
  intros [= <-]. by rewrite Hs.
Qed.

(** X9. After a refresh that was answered [ok] with a token, for a stored
    credential that passes its schema.  When the answer carried a lifetime
    ([expires_in] a number other than 0) and the new expiry is within the
    range of a date, a later [ensureValidToken] before the new expiry returns
    the new token without calling Slack and without writing.  When the new
    expiry is beyond the range of a date, the [save()] was rejected: the
    stored credential is as it was, and the next call refreshes again.  When
    the answer carried no lifetime, the stored expiry stays in the past and
    the next call refreshes again. *)
Theorem ensureValidToken_after_refresh (env1 env2 : Env) (w : World) (userId : string)
    (u : User) (t : Date) (rt : string) (resp : SlackRefreshResponse) :
  users w !! userId = Some u →
  SlackUser.validate userId u = true →
  SlackUser.tokenExpiresAt u = Some t → t ≤ clock env1 →
  truthy_string (SlackUser.refreshToken u) = Some rt →
  oauth_v2_access env1 rt = Resolved resp → ok resp = true →
  access_token resp ≠ "" →
  let w1 := (run env1 (SlackService.ensureValidToken userId) w).2 in
  (∀ seconds, truthy_number (expires_in resp) = Some seconds →
              Date_valid (clock env1 + seconds * 1000) = true →
              clock env2 < clock env1 + seconds * 1000 →
              run env2 (SlackService.ensureValidToken userId) w1
              = (Returned (access_token resp), w1))
  ∧ (∀ seconds, truthy_number (expires_in resp) = Some seconds →
                Date_valid (clock env1 + seconds * 1000) = false →
                users w1 = users w
                ∧ (clock env1 ≤ clock env2 →
                   calls (run env2 (SlackService.ensureValidToken userId) w1).2
                   = calls w1 ++ [CallOAuthAccess rt]))
  ∧ (truthy_number (expires_in resp) = None → clock env1 ≤ clock env2 →
     ∃ rt', calls (run env2 (SlackService.ensureValidToken userId) w1).2
            = calls w1 ++ [CallOAuthAccess rt']).
Proof.
  intros Hu Hvalid Ht Hle Hrt Hresp Hok Htok w1.
  assert (Date_valid t = true) as Hdate.
  { unfold SlackUser.validate in Hvalid. rewrite Ht in Hvalid.
    by apply andb_true_iff in Hvalid as [_ Hvalid]. }
  assert (run env1 (SlackService.ensureValidToken userId) w =
          let w0 := log_call (CallOAuthAccess rt) w in
          let u' := refreshed (clock env1) resp u in
          if SlackUser.validate userId u'
          then (Returned (access_token resp),
                set_users (<[userId := SlackUser.pre_save (clock env1) u']> (users w0)) w0)
          else (Thrown (SlackUser_invalid env1 userId u'), w0)) as Hrun.
  { rewrite (ensureValidToken_refresh _ _ _ u t rt) by (done || by apply Date_le_true).
    cbn zeta. by rewrite Hresp, Hok. }
  assert (∀ env w0, users w0 !! userId = Some u → clock env1 ≤ clock env →
            calls (run env (SlackService.ensureValidToken userId) w0).2
            = calls w0 ++ [CallOAuthAccess rt]) as Hagain.
  { intros env w0 Hu0 Hlater.
    rewrite (ensureValidToken_refresh env w0 userId u t rt);
      [|done|done|apply Date_le_true; split; [done|lia]|done].
    cbn zeta. destruct (oauth_v2_access env rt) as [?|r]; [done|].
    destruct (ok r); [|done]. cbn zeta.
    by destruct (SlackUser.validate userId (refreshed (clock env) r u)). }
  split_and!.
  - intros seconds Hs Hexpiry Hbefore.
    assert (users w1 !! userId
            = Some (SlackUser.pre_save (clock env1) (refreshed (clock env1) resp u)))
      as Hu1.
    { unfold w1. rewrite Hrun. cbn zeta.
      rewrite (refreshed_valid (clock env1) resp u userId Hvalid Htok).
      - apply lookup_insert_eq.
      - intros s' Hs'. congruence. }
    rewrite (ensureValidToken_not_expired env2 w1 userId _ Hu1).
    + unfold refreshed. rewrite Hs.
      by destruct (truthy_string (refresh_token resp)).
    + right. exists (clock env1 + seconds * 1000). split; [|done].
      unfold refreshed. rewrite Hs. by destruct (truthy_string (refresh_token resp)).
  - intros seconds Hs Hexpiry.
    assert (SlackUser.validate userId (refreshed (clock env1) resp u) = false) as Hinvalid.
    { unfold SlackUser.validate, refreshed. rewrite Hs.
      destruct (truthy_string (refresh_token resp)); cbn; rewrite Hexpiry;
        apply andb_false_r. }
    assert (w1 = log_call (CallOAuthAccess rt) w) as Hw1.
    { unfold w1. rewrite Hrun. cbn zeta. by rewrite Hinvalid. }
    split; [by rewrite Hw1|]. intros Hlater. apply Hagain; [|done]. by rewrite Hw1.
  - intros Hnone Hlater.
    assert (users w1 !! userId
            = Some (SlackUser.pre_save (clock env1) (refreshed (clock env1) resp u)))
      as Hu1.
    { unfold w1. rewrite Hrun. cbn zeta.
      rewrite (refreshed_valid (clock env1) resp u userId Hvalid Htok).
      - apply lookup_insert_eq.
      - intros s' Hs'. congruence. }
    assert (∃ rt', truthy_string
                     (SlackUser.refreshToken
                        (SlackUser.pre_save (clock env1) (refreshed (clock env1) resp u)))
                   = Some rt') as [rt' Hrt'].
    { unfold refreshed. rewrite Hnone.
      destruct (truthy_string (refresh_token resp)) as [new|] eqn:Hnew; cbn.
      - exists new. by apply truthy_string_Some in Hnew as [_ Hnew].
      - by exists rt. }
    exists rt'.
    rewrite (ensureValidToken_refresh env2 w1 userId _ t rt' Hu1);
      [| |apply Date_le_true; split; [done|lia]|done].
    + cbn zeta. destruct (oauth_v2_access env2 rt') as [?|r]; [done|].
      destruct (ok r); [|done]. cbn zeta.
      by destruct (SlackUser.validate userId (refreshed (clock env2) r _)).
    + unfold refreshed. rewrite Hnone.
      by destruct (truthy_string (refresh_token resp)).
Qed.

Lemma ensureValidToken_after_refresh_witness :
  let w1 := (run (Sample.slack_up 100) (SlackService.ensureValidToken "U2")
                 Sample.one_pending).2 in
  run (Sample.slack_up 5000) (SlackService.ensureValidToken "U2") w1
  = (Returned "xoxe-2", w1).
Proof.
  cbn zeta.
  refine (proj1 (ensureValidToken_after_refresh
                   (Sample.slack_up 100) (Sample.slack_up 5000) Sample.one_pending "U2"
                   Sample.bob 50 "refresh-1"
                   {| ok := true; error := None; access_token := "xoxe-2";
                      refresh_token := Some "refresh-2"; expires_in := Some 3600 |}
                   eq_refl eq_refl eq_refl _ eq_refl eq_refl eq_refl _)
                3600 eq_refl eq_refl _);
    [vm_compute; discriminate|discriminate|reflexivity].
Defined.

(** ** The reasons Slack gives *)

Section same_answers.
Variables (env1 env2 : Env).
Hypothesis Hsame : same_answers env1 env2.

Lemma ensureValidToken_same_answers w userId :
  run env1 (SlackService.ensureValidToken userId) w
  = run env2 (SlackService.ensureValidToken userId) w.
Proof.
  destruct Hsame as (Hclock & Hrefresh & _ & _ & Huser).
  rewrite !ensureValidToken_cases, <- Hclock.
  destruct (users w !! userId) as [u|]; [|done].
  destruct (SlackUser.tokenExpiresAt u) as [t|]; [|done].
  destruct (Date_le t (clock env1)); [|done].
  destruct (truthy_string (SlackUser.refreshToken u)) as [rt|]; [|done]. cbn zeta.
  rewrite <- Hrefresh.
  destruct (refresh_outcome _) as [r|]; [|done]. by rewrite Huser.
Qed.

Lemma sendScheduledMessage_same_answers w messageId :
  run env1 (MessageScheduler.sendScheduledMessage messageId) w
  = run env2 (MessageScheduler.sendScheduledMessage messageId) w.
Proof.
  destruct (messages w !! messageId) as [m|] eqn:Hm;
    [|by rewrite !sendScheduledMessage_skips by congruence].
  destruct (decide (ScheduledMessage.status m = Pending)) as [Hst|Hst];
    [|by rewrite !sendScheduledMessage_skips by congruence].
  rewrite !(sendScheduledMessage_pending _ _ _ m) by done. cbn zeta.
  rewrite ensureValidToken_same_answers.
  destruct Hsame as (Hclock & _ & Hpost & _). unfold saved. rewrite <- Hclock.
  destruct (run env2 (SlackService.ensureValidToken _) w) as [[tok|e] w1]; [|done].
  specialize (Hpost tok (ScheduledMessage.channelId m) (ScheduledMessage.message m)).
  unfold post_outcome in Hpost.
  destruct (chat_postMessage env1 tok _ _) as [?|[[]|]],
           (chat_postMessage env2 tok _ _) as [?|[[]|]]; done.
Qed.

Lemma send_each_same_answers l w :
  run env1 (send_each l) w = run env2 (send_each l) w.
Proof.
  revert w. induction l as [|x l IH]; intros w; [done|].
  unfold send_each. rewrite !run_for_of_cons, sendScheduledMessage_same_answers.
  destruct (run env2 (MessageScheduler.sendScheduledMessage x.1) w) as [[[]|e] w1];
    [apply IH|done].
Qed.

End same_answers.

(** X10. The reasons and error texts that Slack gives never reach the
    store: two runs of an engine operation whose surroundings differ only in
    the reason of a rejection, or in the content of an answer that is not
    [ok], leave the same world. *)
Theorem slack_reasons_are_not_recorded (env1 env2 : Env) (op : Operation) (w : World) :
  same_answers env1 env2 → after env1 op w = after env2 op w.
Proof.
  intros Hsame. pose proof Hsame as (Hclock & _ & _ & Hmessage & _).
  destruct op as [u t c n b s|i u|i|]; cbn [after].
  - rewrite !scheduleMessage_run, Hclock. cbn zeta.
    destruct (Date_le s (clock env2)); [done|].
    by destruct (ScheduledMessage.validate _).
  - rewrite !cancelScheduledMessage_run. unfold saved. rewrite Hclock.
    destruct (messages w !! i) as [m|]; [|done]. destruct (_ && _); [|done].
    by destruct (ScheduledMessage.validate m).
  - by rewrite (sendScheduledMessage_same_answers env1 env2).
  - rewrite !processScheduledMessages_run. cbn [snd].
    by rewrite Hclock, (send_each_same_answers env1 env2).
Qed.

Lemma slack_reasons_are_not_recorded_witness :
  after (Sample.slack_down 300) PollerTick Sample.one_pending
  = after (Sample2.slack_timeout 300) PollerTick Sample.one_pending.
Proof.
  apply slack_reasons_are_not_recorded. by repeat split.
Defined.

(** ** The order of the listing *)

(** X11. [getUserScheduledMessages] returns the items newest due time
    first: every item is due no earlier than each item after it. *)
Theorem listing_is_newest_first (env : Env) (w : World) (userId : string) :
  ∃ l, run env (MessageScheduler.getUserScheduledMessages userId) w = (Returned l, w)
       ∧ StronglySorted later_or_same l.
Proof.
  eexists. split; [apply getUserScheduledMessages_run|].
  apply (StronglySorted_fmap _ scheduledFor_ge); [done|].
  unfold find. apply StronglySorted_merge_sort.
  - intros a b c. unfold scheduledFor_ge. lia.
  - intros a b. unfold scheduledFor_ge. lia.
Qed.

(** * The message routes *)

(** ** How an id is spelled *)

Lemma hex_value_zeros k s : hex_value (Nat.iter k (String.append "0") s) = hex_value s.
Proof.
  induction k as [|k IH]; [done|]. rewrite <- IH. unfold hex_value.
  change (Nat.iter (S k) (String.append "0") s)
    with (String.append "0" (Nat.iter k (String.append "0") s)).
  simpl. by destruct (HexadecimalString.NilEmpty.uint_of_string _).
Qed.

Lemma hex_value_toString _id : hex_value (ObjectId_toString _id) = Some _id.
Proof.
  unfold ObjectId_toString. rewrite hex_value_zeros. unfold hex_value.
  rewrite HexadecimalString.NilEmpty.usu. cbn.
  by rewrite HexadecimalN.Unsigned.of_to.
Qed.

(** Two ids are spelled differently, and no id is spelled by the empty string. *)
Lemma ObjectId_toString_inj : Inj (=) (=) ObjectId_toString.
Proof.
  intros a b Heq. pose proof (hex_value_toString a) as Ha.
  rewrite Heq, hex_value_toString in Ha. by injection Ha.
Qed.

Lemma ObjectId_toString_nonempty _id : ObjectId_toString _id ≠ "".
Proof.
  intros Hempty. pose proof (hex_value_toString _id) as Hid.
  rewrite Hempty in Hid. injection Hid as <-. by vm_compute in Hempty.
Qed.

Section message_routes.
Import ScheduledMessage.
Variables (env : Env) (w : World) (user : AuthUser).

(** The caller's own pending record that the path parameter spells, if
    there is one. *)
Lemma find_own_pending (path : string) :
  let own_pending msg :=
    String.eqb (ObjectId_toString (Listed.id msg)) path
    && bool_decide (Listed.status msg = Pending) in
  match List.find own_pending
          (listed <$> find (listable (auth_userId user)) Descending (messages w)) with
  | Some it => path = ObjectId_toString (Listed.id it)
               ∧ ∃ m, messages w !! Listed.id it = Some m
                      ∧ userId m = auth_userId user ∧ status m = Pending
  | None => ¬ ∃ _id m, path = ObjectId_toString _id ∧ messages w !! _id = Some m
                       ∧ userId m = auth_userId user ∧ status m = Pending
  end.
Proof.
  cbn zeta.
  destruct (List.find _ _) as [it|] eqn:Hfind.
  - apply List.find_some in Hfind as [Hin Hit].
    apply list_elem_of_In, elem_of_listing in Hin as (m & Hm & Hu & _ & Heq).
    apply andb_true_iff in Hit as [Hid%String.eqb_eq Hst%bool_decide_eq_true].
    rewrite Heq in Hst. cbn in Hst. split; [done|]. by exists m.
  - intros (_id & m & -> & Hm & Hu & Hst).
    pose proof (List.find_none _ _ Hfind (listed (_id, m))) as Hnone.
    cbn in Hnone. rewrite String.eqb_refl, bool_decide_eq_true_2 in Hnone by done.
    enough (true = false) by done. apply Hnone.
    apply list_elem_of_In, elem_of_listing. exists m. cbn.
    split_and!; try done. by rewrite Hst.
Qed.

Lemma sendNow_run (path : string) :
  path ≠ "" →
  run env (MessageRoutes.sendNow user path) w =
  match List.find (λ msg, String.eqb (ObjectId_toString (Listed.id msg)) path
                          && bool_decide (Listed.status msg = Pending))
          (listed <$> find (listable (auth_userId user)) Descending (messages w)) with
  | Some it =>
      (Returned (Http.mk 200 true None None (Some "Message sent successfully")),
       after env (SendNow (Listed.id it)) w)
  | None =>
      (Returned (Http.failure 404 "Scheduled message not found or already sent"), w)
  end.
Proof.
  intros Hpath%String.eqb_neq. unfold MessageRoutes.sendNow. rewrite Hpath.
  rewrite run_try_catch, run_bind, getUserScheduledMessages_run.
  destruct (List.find _ _) as [it|]; [|done].
  rewrite run_bind. cbn [after].
  pose proof (sendScheduledMessage_returns env w (Listed.id it)) as Hret.
  by destruct (run env (MessageScheduler.sendScheduledMessage (Listed.id it)) w)
    as [[[]|e] w1].
Qed.

(** The route on the path that spells an id. *)
Lemma sendNow_run_id (messageId : ObjectId) :
  run env (MessageRoutes.sendNow user (ObjectId_toString messageId)) w =
  match messages w !! messageId with
  | Some m =>
      if String.eqb (userId m) (auth_userId user) && bool_decide (status m = Pending)
      then (Returned (Http.mk 200 true None None (Some "Message sent successfully")),
            after env (SendNow messageId) w)
      else (Returned (Http.failure 404 "Scheduled message not found or already sent"), w)
  | None =>
      (Returned (Http.failure 404 "Scheduled message not found or already sent"), w)
  end.
Proof.
  rewrite sendNow_run by apply ObjectId_toString_nonempty.
  pose proof (find_own_pending (ObjectId_toString messageId)) as Hfind.
  cbn zeta in Hfind. destruct (List.find _ _) as [it|].
  - destruct Hfind as [<-%ObjectId_toString_inj (m & -> & Hu & Hst)].
    by rewrite (proj2 (String.eqb_eq _ _) Hu), bool_decide_eq_true_2.
  - destruct (messages w !! messageId) as [m|] eqn:Hm; [|done].
    destruct (String.eqb_spec (userId m) (auth_userId user)) as [Hu|Hu]; [|done].
    destruct (decide (status m = Pending)) as [Hst|Hst];
      [|by rewrite bool_decide_eq_false_2].
    destruct Hfind. by exists messageId, m.
Qed.

Lemma cancel_route_run (messageId : ObjectId) :
  run env (MessageRoutes.cancel user messageId) w =
  match run env (MessageScheduler.cancelScheduledMessage messageId (auth_userId user)) w with
  | (Returned true, w') =>
      (Returned (Http.mk 200 true None None (Some "Message cancelled successfully")), w')
  | (Returned false, w') =>
      (Returned (Http.failure 404 "Scheduled message not found or already sent"), w')
  | (Thrown _, w') =>
      (Returned (Http.failure 500 "Failed to cancel scheduled message"), w')
  end.
Proof.
  unfold MessageRoutes.cancel. rewrite run_try_catch, run_bind.
  by destruct (run env (MessageScheduler.cancelScheduledMessage _ _) w) as [[[]|e] w'].
Qed.

End message_routes.

(** X12. The send-now route serves only the caller's own pending records.
    For an id that is unknown, owned by someone else, or no longer pending
    (cancelled records included), it answers 404 and changes nothing: no call
    to Slack, no write.  The same holds for a path parameter that is not the
    24 lower-case hexadecimal digits of an id, whatever it is meant to spell;
    for the empty parameter the answer is 400. *)
Theorem sendNow_refuses_foreign_or_settled (env : Env) (w : World) (user : AuthUser) :
  (∀ messageId : ObjectId,
     (¬ ∃ m, messages w !! messageId = Some m
             ∧ ScheduledMessage.userId m = auth_userId user
             ∧ ScheduledMessage.status m = Pending) →
     run env (MessageRoutes.sendNow user (ObjectId_toString messageId)) w
     = (Returned (Http.failure 404 "Scheduled message not found or already sent"), w))
  ∧ (∀ path : string,
       (∀ _id : ObjectId, path ≠ ObjectId_toString _id) →
       run env (MessageRoutes.sendNow user path) w
       = (Returned (if String.eqb path "" then Http.failure 400 "Message ID is required"
                    else Http.failure 404 "Scheduled message not found or already sent"),
          w)).
Proof.
  split.
  - intros messageId Hnone. rewrite sendNow_run_id.
    destruct (messages w !! messageId) as [m|] eqn:Hm; [|done].
    destruct (String.eqb_spec (ScheduledMessage.userId m) (auth_userId user)) as [Hu|Hu];
      [|done].
    destruct (decide (ScheduledMessage.status m = Pending)) as [Hst|Hst];
      [|by rewrite bool_decide_eq_false_2].
    destruct Hnone. by exists m.
  - intros path Hspells.
    destruct (String.eqb_spec path "") as [->|Hpath]; [done|].
    rewrite sendNow_run by done.
    pose proof (find_own_pending w user path) as Hfind. cbn zeta in Hfind.
    destruct (List.find _ _) as [it|]; [|done].
    destruct Hfind as [Hit _]. by destruct (Hspells (Listed.id it)).
Qed.

(** X13. For the caller's own pending record, named by the digits of its
    id, the send-now route runs the delivery and answers 200 "Message sent
    successfully" whatever the delivery did: the answer is the same when the
    record ends as failed, which, like sent, is how every record that is
    well-formed for its schema ends. *)
Theorem sendNow_answers_success_whatever_the_outcome (env : Env) (w : World)
    (user : AuthUser) (messageId : ObjectId) (m : Message) :
  messages w !! messageId = Some m →
  ScheduledMessage.userId m = auth_userId user →
  ScheduledMessage.status m = Pending →
  run env (MessageRoutes.sendNow user (ObjectId_toString messageId)) w
  = (Returned (Http.mk 200 true None None (Some "Message sent successfully")),
     after env (SendNow messageId) w)
  ∧ (ScheduledMessage.validate m = true →
     ∃ m', messages (after env (SendNow messageId) w) !! messageId = Some m'
           ∧ (ScheduledMessage.status m' = Sent ∨ ScheduledMessage.status m' = Failed))
  ∧ (ScheduledMessage.validate m = false →
     messages (after env (SendNow messageId) w) = messages w).
Proof.
  intros Hm Hu Hst. split_and!.
  - rewrite sendNow_run_id, Hm.
    by rewrite (proj2 (String.eqb_eq _ _) Hu), bool_decide_eq_true_2.
  - intros Hvalid.
    destruct (sendScheduledMessage_settles env w messageId m Hm Hst Hvalid)
      as (m' & Hw' & Hst' & _).
    exists m'. by rewrite Hw', lookup_insert_eq.
  - intros Hinvalid.
    destruct (sendScheduledMessage_attempt env w messageId m Hm Hst) as [_ Hw'].
    by rewrite Hinvalid in Hw'.
Qed.

Lemma sendNow_answers_success_whatever_the_outcome_witness :
  run (Sample.slack_down 300)
      (MessageRoutes.sendNow {| auth_userId := "U1"; auth_teamId := "T1";
                                auth_teamName := "Team"; auth_userName := "Ann" |}
         "000000000000000000000001")
      Sample.one_pending
  = (Returned (Http.mk 200 true None None (Some "Message sent successfully")),
     after (Sample.slack_down 300) (SendNow 1%N) Sample.one_pending)
  ∧ ScheduledMessage.status <$>
      messages (after (Sample.slack_down 300) (SendNow 1%N) Sample.one_pending) !! 1%N
    = Some Failed.
Proof.
  destruct (sendNow_answers_success_whatever_the_outcome
              (Sample.slack_down 300) Sample.one_pending
              {| auth_userId := "U1"; auth_teamId := "T1";
                 auth_teamName := "Team"; auth_userName := "Ann" |} 1%N
              (Sample.record "U1" "C123" 100 Pending) eq_refl eq_refl eq_refl)
    as [Hreply _].
  split; [exact Hreply|reflexivity].
Defined.

(** Bob names Ann's record; and Ann names her own record in upper case. *)
Lemma sendNow_refuses_foreign_or_settled_witness :
  run (Sample.slack_up 300)
      (MessageRoutes.sendNow {| auth_userId := "U2"; auth_teamId := "T1";
                                auth_teamName := "Team"; auth_userName := "Bob" |}
         "000000000000000000000001")
      Sample.one_pending
  = (Returned (Http.failure 404 "Scheduled message not found or already sent"),
     Sample.one_pending)
  ∧ run (Sample.slack_up 300)
        (MessageRoutes.sendNow {| auth_userId := "U1"; auth_teamId := "T1";
                                  auth_teamName := "Team"; auth_userName := "Ann" |}
           "00000000000000000000000A")
        (set_messages {[ 10%N := Sample.record "U1" "C123" 100 Pending ]}
           Sample.one_pending)
    = (Returned (Http.failure 404 "Scheduled message not found or already sent"),
       set_messages {[ 10%N := Sample.record "U1" "C123" 100 Pending ]}
         Sample.one_pending).
Proof.
  split.
  - apply (proj1 (sendNow_refuses_foreign_or_settled _ _ _) 1%N).
    intros (m & Hm & Hu & _). cbn [Sample.one_pending messages] in Hm.
    apply lookup_singleton_Some in Hm as [_ <-]. discriminate.
  - apply (proj2 (sendNow_refuses_foreign_or_settled _ _ _) "00000000000000000000000A").
    intros _id Hspelled.
    assert (hex_value "00000000000000000000000A" = Some _id) as Hvalue
      by (rewrite Hspelled; apply hex_value_toString).
    discriminate.
Defined.

Lemma scheduled_route_run env w user :
  run env (MessageRoutes.scheduled user) w =
  (Returned (Http.mk 200 true
               (Some (listed <$> find (listable (auth_userId user)) Descending (messages w)))
               None None), w).
Proof.
  unfold MessageRoutes.scheduled.
  by rewrite run_try_catch, run_bind, getUserScheduledMessages_run.
Qed.

(** X14. No message route reaches into another user's records: whatever
    id the caller names, and however the path of the send-now route spells
    it, the cancel route and the send-now route leave every record owned by
    someone else exactly as it is, and the listing route does not show it. *)
Theorem message_routes_keep_foreign_records (env : Env) (w : World) (user : AuthUser)
    (messageId _id : ObjectId) (path : string) (m : Message) :
  messages w !! _id = Some m →
  ScheduledMessage.userId m ≠ auth_userId user →
  messages (run env (MessageRoutes.cancel user messageId) w).2 !! _id = Some m
  ∧ messages (run env (MessageRoutes.sendNow user path) w).2 !! _id = Some m
  ∧ ∃ l, (run env (MessageRoutes.scheduled user) w).1
         = Returned (Http.mk 200 true (Some l) None None)
         ∧ _id ∉ Listed.id <$> l.
Proof.
  intros Hm Hforeign. split_and!.
  - rewrite cancel_route_run, cancelScheduledMessage_run. unfold saved.
    destruct (messages w !! messageId) as [mi|] eqn:Hi; [|done].
    destruct (String.eqb_spec (ScheduledMessage.userId mi) (auth_userId user))
      as [Hown|Hother]; [|done].
    destruct (bool_decide _); [|done]. cbn [andb]. validate_as_loaded mi.
    destruct (ScheduledMessage.validate mi); [|done]. cbn.
    rewrite lookup_insert_ne; [done|]. congruence.
  - destruct (String.eqb_spec path "") as [->|Hpath]; [done|].
    rewrite sendNow_run by done.
    pose proof (find_own_pending w user path) as Hfind. cbn zeta in Hfind.
    destruct (List.find _ _) as [it|]; [|done].
    destruct Hfind as (_ & mi & Hi & Hown & _).
    cbn [snd]. rewrite sendScheduledMessage_other; [done|]. congruence.
  - eexists. rewrite scheduled_route_run. split; [reflexivity|].
    intros (it & -> & Hin)%list_elem_of_fmap.
    apply elem_of_listing in Hin as (m' & Hm' & Hu & _). congruence.
Qed.

Lemma message_routes_keep_foreign_records_witness :
  let bob := {| auth_userId := "U2"; auth_teamId := "T1";
                auth_teamName := "Team"; auth_userName := "Bob" |} in
  messages (run (Sample.slack_up 300) (MessageRoutes.cancel bob 1%N) Sample.one_pending).2
    !! 1%N = Some (Sample.record "U1" "C123" 100 Pending)
  ∧ messages (run (Sample.slack_up 300)
                (MessageRoutes.sendNow bob "000000000000000000000001")
                Sample.one_pending).2
      !! 1%N = Some (Sample.record "U1" "C123" 100 Pending)
  ∧ ∃ l, (run (Sample.slack_up 300) (MessageRoutes.scheduled bob) Sample.one_pending).1
         = Returned (Http.mk 200 true (Some l) None None)
         ∧ 1%N ∉ Listed.id <$> l.
Proof.
  cbn zeta. apply message_routes_keep_foreign_records; [reflexivity|discriminate].
Defined.

(** * The immediate send *)

(** X15. [POST /slack/send-message] never writes a delivery record, so an
    immediate send appears in no listing and in no statistics.  It posts at
    most one message; it answers 200 only after a post; with the channel or
    the text missing or empty it answers 400 and calls nothing. *)
Theorem immediate_send_is_not_recorded (env : Env) (w : World) (user : AuthUser)
    (body : SlackRoutes.SendMessageRequest) :
  ∃ reply w', run env (SlackRoutes.sendMessage user body) w = (Returned reply, w')
    ∧ messages w' = messages w
    ∧ (posts (calls w') ≤ S (posts (calls w)))%nat
    ∧ (Http.status reply = 200%nat → posts (calls w') = S (posts (calls w)))
    ∧ (truthy_string (SlackRoutes.channelId body) = None
       ∨ truthy_string (SlackRoutes.message body) = None →
       reply = Http.failure 400 "Channel ID and message are required" ∧ w' = w).
Proof.
  unfold SlackRoutes.sendMessage.
  destruct (truthy_string (SlackRoutes.channelId body)) as [channel|];
    [destruct (truthy_string (SlackRoutes.message body)) as [text|]|].
  2,3: eexists _, _; split; [reflexivity|]; split_and!; (done || lia || auto).
  rewrite run_try_catch, run_bind.
  destruct (ensureValidToken_frame env w (auth_userId user)) as [Hmsg Hposts].
  destruct (run env (SlackService.ensureValidToken _) w) as [[tok|e] w1];
    cbn [snd] in Hmsg, Hposts.
  - rewrite run_bind. unfold SlackService.sendMessage. cbn -[posts].
    destruct (chat_postMessage env tok channel text) as [?|[[]|]]; cbn -[posts];
      eexists _, _; (split; [reflexivity|]); cbn -[posts];
      rewrite posts_log_post, Hposts; split_and!; try done; try lia;
      by intros [|].
  - eexists _, _. split; [reflexivity|]. cbn -[posts]. rewrite Hposts.
    split_and!; try done; try lia. by intros [|].
Qed.

(** * The middleware *)

Section split_space.
Import Middleware.

Lemma split_space_spaceless s : spaceless s = true → split_space s = [s].
Proof.
  induction s as [|c s IH]; [done|]. cbn [split_space spaceless].
  destruct (String.eqb (String c "") " "); [done|]. cbn. by intros ->%IH.
Qed.

Lemma split_space_word word rest :
  spaceless word = true →
  split_space (word +:+ " " +:+ rest) = word :: split_space rest.
Proof.
  intros Hword. induction word as [|c word IH]; [done|].
  change (String c word +:+ " " +:+ rest) with (String c (word +:+ " " +:+ rest)).
  cbn [split_space spaceless] in *.
  destruct (String.eqb (String c "") " "); [done|]. cbn in Hword.
  by rewrite (IH Hword).
Qed.

End split_space.

(** X16. [authenticateUser] takes the second space-separated word of the
    Authorization header as the token, whatever the first word (the scheme)
    is and whatever follows the token, and passes the request on exactly
    when [jwt.verify] accepts that word under [JWT_SECRET], or under the
    constant ['default-secret'] when [JWT_SECRET] is unset or empty.  Without
    a header, or with a header of one word, it answers 401. *)
Theorem authenticateUser_reads_second_word
    (jwt_verify : string → string → option AuthUser) (JWT_SECRET : option string) :
  (∀ scheme token, Middleware.spaceless scheme = true →
     Middleware.spaceless token = true → token ≠ "" →
     let accepted :=
       match jwt_verify token (Middleware.jwt_secret JWT_SECRET) with
       | Some decoded => inr decoded
       | None => inl (Http.failure 401 "Invalid access token")
       end in
     Middleware.authenticateUser jwt_verify JWT_SECRET (Some (scheme +:+ " " +:+ token))
     = accepted
     ∧ ∀ rest, Middleware.authenticateUser jwt_verify JWT_SECRET
                 (Some (scheme +:+ " " +:+ token +:+ " " +:+ rest))
               = accepted)
  ∧ (∀ word, Middleware.spaceless word = true →
       Middleware.authenticateUser jwt_verify JWT_SECRET (Some word)
       = inl (Http.failure 401 "Access token is required"))
  ∧ Middleware.authenticateUser jwt_verify JWT_SECRET None
    = inl (Http.failure 401 "Access token is required")
  ∧ (truthy_string JWT_SECRET = None →
     Middleware.jwt_secret JWT_SECRET = "default-secret").
Proof.
  split_and!.
  - intros scheme token Hscheme Htoken Hne accepted.
    assert (truthy_string (Some token) = Some token) as Htruthy.
    { cbn. by rewrite (proj2 (String.eqb_neq _ _) Hne). }
    unfold Middleware.authenticateUser. split.
    + cbn [mbind option_bind]. rewrite split_space_word, split_space_spaceless by done.
      cbn [lookup list_lookup]. by rewrite Htruthy.
    + intros rest. cbn [mbind option_bind].
      rewrite !split_space_word by done.
      cbn [lookup list_lookup]. by rewrite Htruthy.
  - intros word Hword. unfold Middleware.authenticateUser. cbn [mbind option_bind].
    by rewrite split_space_spaceless.
  - done.
  - unfold Middleware.jwt_secret. by intros ->.
Qed.

Lemma authenticateUser_reads_second_word_witness :
  let jwt_verify token secret :=
    if String.eqb token "h.p.s" && String.eqb secret "default-secret"
    then Some {| auth_userId := "U1"; auth_teamId := "T1";
                 auth_teamName := "Team"; auth_userName := "Ann" |}
    else None in
  Middleware.authenticateUser jwt_verify None (Some "Basic h.p.s")
  = inr {| auth_userId := "U1"; auth_teamId := "T1";
           auth_teamName := "Team"; auth_userName := "Ann" |}.
Proof.
  cbn zeta.
  refine (proj1 (proj1 (authenticateUser_reads_second_word _ None)
                   "Basic" "h.p.s" eq_refl eq_refl _)).
  discriminate.
Defined.

(** X17. [errorHandler] answers with a status within 100..999, or not at
    all.  A CastError is answered 400 with ['Invalid ID format'] and a
    duplicate-key MongoError 400 with ['Duplicate field value entered'],
    whatever status the error carries.  A ValidationError is answered 400
    with the messages of its [errors] joined by a comma and a space; one that
    carries no [errors] makes the handler itself throw.  Any other error is
    answered with the first of [statusCode] and [status] that is not 0, or
    with 500, and with an error text that is not empty; where that status is
    outside 100..999 the handler throws and sends nothing.  A stack is sent
    only when [NODE_ENV] is ['development']. *)
Theorem errorHandler_answers (NODE_ENV : option string) (err : Middleware.CustomError) :
  (∀ reply, Middleware.errorHandler NODE_ENV err = Returned reply →
            100 ≤ Middleware.reply_status reply ≤ 999
            ∧ (NODE_ENV ≠ Some "development" → Middleware.reply_stack reply = None))
  ∧ (Middleware.name err = "CastError" →
     ∃ reply, Middleware.errorHandler NODE_ENV err = Returned reply
              ∧ Middleware.reply_status reply = 400
              ∧ Middleware.reply_error reply = "Invalid ID format")
  ∧ (Middleware.name err = "MongoError" → Middleware.code err = Some 11000 →
     ∃ reply, Middleware.errorHandler NODE_ENV err = Returned reply
              ∧ Middleware.reply_status reply = 400
              ∧ Middleware.reply_error reply = "Duplicate field value entered")
  ∧ (Middleware.name err = "ValidationError" →
     match Middleware.errors err with
     | Some messages =>
         ∃ reply, Middleware.errorHandler NODE_ENV err = Returned reply
                  ∧ Middleware.reply_status reply = 400
                  ∧ Middleware.reply_error reply = String.concat ", " messages
     | None => ∃ msg, Middleware.errorHandler NODE_ENV err = Thrown msg
     end)
  ∧ (Middleware.name err ≠ "CastError" → Middleware.name err ≠ "ValidationError" →
     ¬ (Middleware.name err = "MongoError" ∧ Middleware.code err = Some 11000) →
     let statusCode :=
       default (default 500 (truthy_number (Middleware.status err)))
               (truthy_number (Middleware.statusCode err)) in
     if (100 <=? statusCode) && (statusCode <=? 999)
     then ∃ reply, Middleware.errorHandler NODE_ENV err = Returned reply
                   ∧ Middleware.reply_status reply = statusCode
                   ∧ Middleware.reply_error reply ≠ ""
     else ∃ msg, Middleware.errorHandler NODE_ENV err = Thrown msg).
Proof.
  assert (∀ n e st reply, Middleware.send n e st = Returned reply →
            100 ≤ n ≤ 999 ∧ reply = Middleware.Build_ErrorReply n e st) as Hsend.
  { intros n e st reply. unfold Middleware.send.
    destruct (_ && _) eqn:Hn; [|done]. intros [= <-]. split; [lia|done]. }
  unfold Middleware.errorHandler. split_and!.
  - intros reply Hreply.
    assert (∃ n e, Middleware.send n e
                     (if bool_decide (NODE_ENV = Some "development")
                      then Middleware.stack err else None) = Returned reply)
      as (n & e & [Hn ->]%Hsend).
    { destruct (String.eqb (Middleware.name err) "CastError");
        destruct (String.eqb (Middleware.name err) "MongoError"
                  && bool_decide (Middleware.code err = Some 11000));
        (destruct (String.eqb (Middleware.name err) "ValidationError");
         [destruct (Middleware.errors err); [|done]|]); eauto. }
    split; [done|]. intros Hdev. cbn. by rewrite bool_decide_eq_false_2.
  - intros ->. cbn. by eexists.
  - intros -> ->. cbn. by eexists.
  - intros ->. cbn. destruct (Middleware.errors err); by eexists.
  - intros Hcast%String.eqb_neq Hvalidation%String.eqb_neq Hduplicate. cbn zeta.
    rewrite Hcast, Hvalidation.
    assert (String.eqb (Middleware.name err) "MongoError"
            && bool_decide (Middleware.code err = Some 11000) = false) as ->.
    { apply not_true_is_false.
      intros [Hname%String.eqb_eq Hcode%bool_decide_eq_true]%andb_true_iff. auto. }
    assert (match truthy_number (Middleware.statusCode err) with
            | Some n => n
            | None => default 500 (truthy_number (Middleware.status err))
            end
            = default (default 500 (truthy_number (Middleware.status err)))
                (truthy_number (Middleware.statusCode err))) as ->
      by (by destruct (truthy_number (Middleware.statusCode err))).
    unfold Middleware.send. destruct (_ && _); [|by eexists].
    eexists. split; [reflexivity|]. split; [done|]. cbn.
    by destruct (String.eqb_spec (Middleware.message err) "").
Qed.

(** * The routes that read from Slack *)

Lemma run_settle env {X} (r : HttpResult X) w :
  run env (settle r) w
  = (match r with Rejected reason => Thrown reason | Resolved data => Returned data end, w).
Proof. by destruct r. Qed.

(** [getUserChannels] touches nothing of the store, and every failure
    surfaces under one message. *)
Lemma getUserChannels_run env web accessToken w :
  run env (SlackReads.getUserChannels web accessToken) w =
  (match channels_of (conversations_list web accessToken) with
   | Some channels => Returned channels
   | None => Thrown "Failed to fetch user channels"
   end, w).
Proof.
  unfold SlackReads.getUserChannels, channels_of.
  rewrite run_try_catch, run_bind, run_settle.
  destruct (conversations_list web accessToken) as [reason|[[] [channels|]]]; done.
Qed.

Lemma getUserInfo_run env web accessToken userId w :
  run env (SlackReads.getUserInfo web accessToken userId) w =
  (match users_info web accessToken userId with
   | Resolved {| info_ok := true; info_user := Some user |} => Returned user
   | _ => Thrown "Failed to get user information"
   end, w).
Proof.
  unfold SlackReads.getUserInfo.
  rewrite run_try_catch, run_bind, run_settle.
  destruct (users_info web accessToken userId) as [reason|[[] [user|]]]; done.
Qed.

Lemma find_fmap {A B} (f : B → bool) (g : A → B) (l : list A) :
  List.find f (g <$> l) = g <$> List.find (λ a, f (g a)) l.
Proof. induction l as [|a l IH]; [done|]. cbn. by destruct (f (g a)). Qed.

Lemma find_as_channel channelId channels :
  List.find (λ ch, bool_decide (SlackChannel.id ch = Some channelId))
            (as_channel <$> channels)
  = as_channel <$> List.find (λ c, bool_decide (conversation_id c = Some channelId))
                             channels.
Proof. exact (find_fmap _ as_channel channels). Qed.

(** What the schedule route does once the body has passed its checks. *)
Lemma schedule_run new_Date web env user body w channelId message scheduledFor when :
  truthy_string (ScheduleRoute.channelId body) = Some channelId →
  truthy_string (ScheduleRoute.message body) = Some message →
  truthy_string (ScheduleRoute.scheduledFor body) = Some scheduledFor →
  new_Date scheduledFor = Some when →
  clock env < when →
  run env (ScheduleRoute.schedule new_Date web user body) w =
  match run env (SlackService.ensureValidToken (auth_userId user)) w with
  | (Thrown error, w1) => (Returned (Http.failure 500 error), w1)
  | (Returned accessToken, w1) =>
      match channels_of (conversations_list web accessToken) with
      | None => (Returned (Http.failure 500 "Failed to fetch user channels"), w1)
      | Some channels =>
          match List.find (λ ch, bool_decide (SlackChannel.id ch = Some channelId))
                          channels with
          | None => (Returned (Http.failure 400 "Channel not found or not accessible"), w1)
          | Some targetChannel =>
              let d := ScheduledMessage.mk (auth_userId user) (auth_teamId user) channelId
                         (SlackChannel.name targetChannel) message when
                         Pending (clock env) (clock env) None None in
              let _id := fresh (dom (messages w1)) in
              if ScheduledMessage.validate d
              then (Returned
                      (Http.mk 201 true
                         (Some (ScheduleRoute.Build_Scheduled _id channelId
                                  (SlackChannel.name targetChannel) message when "scheduled"))
                         None (Some "Message scheduled successfully")),
                    set_messages (<[_id := d]> (messages w1)) w1)
              else (Returned (Http.failure 500 (ScheduledMessage_invalid env d)), w1)
          end
      end
  end.
Proof.
  intros Hchannel Hmessage Hwhen Hdate Hfuture. unfold ScheduleRoute.schedule.
  rewrite Hchannel, Hmessage, Hwhen, Hdate, run_try_catch.
  rewrite (run_bind env (perform NewDate)). cbn [perform run handle].
  rewrite (proj2 (Z.leb_gt _ _) Hfuture).
  rewrite (run_bind env (SlackService.ensureValidToken _)).
  destruct (run env (SlackService.ensureValidToken _) w) as [[accessToken|error] w1];
    [|done].
  rewrite (run_bind env (SlackReads.getUserChannels _ _)), getUserChannels_run.
  destruct (channels_of _) as [channels|]; [|done].
  destruct (List.find _ channels) as [targetChannel|]; [|done].
  rewrite (run_bind env (MessageScheduler.scheduleMessage _ _ _ _ _ _)),
    scheduleMessage_run.
  cbn zeta. rewrite (Date_le_later _ _ Hfuture).
  by destruct (ScheduledMessage.validate _).
Qed.

(** The checks of the schedule route on the body, in the order the handler
    makes them: the fields it names and the instant asked for, or the text
    of the answer 400. *)
Lemma schedule_checks new_Date env (body : ScheduleRoute.MessageRequest) :
  (∃ channelId message scheduledFor when,
     truthy_string (ScheduleRoute.channelId body) = Some channelId
     ∧ truthy_string (ScheduleRoute.message body) = Some message
     ∧ truthy_string (ScheduleRoute.scheduledFor body) = Some scheduledFor
     ∧ new_Date scheduledFor = Some when ∧ clock env < when)
  ∨ (truthy_string (ScheduleRoute.channelId body) = None
     ∨ truthy_string (ScheduleRoute.message body) = None
     ∨ truthy_string (ScheduleRoute.scheduledFor body) = None
     ∨ ∃ scheduledFor, truthy_string (ScheduleRoute.scheduledFor body) = Some scheduledFor
         ∧ (new_Date scheduledFor = None
            ∨ ∃ when, new_Date scheduledFor = Some when ∧ when ≤ clock env)).
Proof.
  destruct (truthy_string (ScheduleRoute.channelId body)) as [channelId|]; [|auto].
  destruct (truthy_string (ScheduleRoute.message body)) as [message|]; [|auto].
  destruct (truthy_string (ScheduleRoute.scheduledFor body)) as [scheduledFor|]; [|auto].
  destruct (new_Date scheduledFor) as [when|] eqn:Hdate; [|right; eauto 10].
  destruct (decide (when ≤ clock env)); [right; eauto 10|].
  left. exists channelId, message, scheduledFor, when. split_and!; [done..|lia].
Qed.

(** A call that settles before its first [await] runs to that result. *)
Lemma advance_settled env {A} (p : Prog A) w a w' :
  advance env p w = (Ret a, w') → run env p w = (Returned a, w').
Proof.
  revert w. induction p as [a0|msg|X e k IH]; intros w; cbn.
  - by intros [= -> ->].
  - done.
  - destruct (synchronous e); [|done].
    destruct (handle env e w) as [x w1]. apply IH.
Qed.

(** The schedule route settles before its first [await] when the body fails
    its checks: the answer 400 for a body that lacks a field, and the answer
    400 for a time that is no date or is not in the future. *)
Lemma schedule_advance_rejected new_Date web env user body w :
  (truthy_string (ScheduleRoute.channelId body) = None
   ∨ truthy_string (ScheduleRoute.message body) = None
   ∨ truthy_string (ScheduleRoute.scheduledFor body) = None
   ∨ ∃ scheduledFor, truthy_string (ScheduleRoute.scheduledFor body) = Some scheduledFor
       ∧ (new_Date scheduledFor = None
          ∨ ∃ when, new_Date scheduledFor = Some when ∧ when ≤ clock env)) →
  advance env (ScheduleRoute.schedule new_Date web user body) w =
  (Ret (Http.failure 400
          match truthy_string (ScheduleRoute.channelId body),
                truthy_string (ScheduleRoute.message body),
                truthy_string (ScheduleRoute.scheduledFor body) with
          | Some _, Some _, Some _ => "Scheduled time must be a valid future date"
          | _, _, _ => "Channel ID, message, and scheduled time are required"
          end), w).
Proof.
  intros Hbody. unfold ScheduleRoute.schedule.
  destruct (truthy_string (ScheduleRoute.channelId body)) as [channelId|]; [|done].
  destruct (truthy_string (ScheduleRoute.message body)) as [message|]; [|done].
  destruct (truthy_string (ScheduleRoute.scheduledFor body)) as [scheduledFor|]; [|done].
  destruct Hbody as [?|[?|[?|(? & [= <-] & Hdate)]]]; try done.
  destruct Hdate as [->|(when & -> & Hpast)]; [done|].
  cbn [try_catch perform mbind Prog_bind bind advance synchronous handle].
  by rewrite (proj2 (Z.leb_le _ _) Hpast).
Qed.

Lemma schedule_run_rejected new_Date web env user body w :
  (truthy_string (ScheduleRoute.channelId body) = None
   ∨ truthy_string (ScheduleRoute.message body) = None
   ∨ truthy_string (ScheduleRoute.scheduledFor body) = None
   ∨ ∃ scheduledFor, truthy_string (ScheduleRoute.scheduledFor body) = Some scheduledFor
       ∧ (new_Date scheduledFor = None
          ∨ ∃ when, new_Date scheduledFor = Some when ∧ when ≤ clock env)) →
  ∃ error, run env (ScheduleRoute.schedule new_Date web user body) w
           = (Returned (Http.failure 400 error), w).
Proof.
  intros Hbody. eexists. apply advance_settled.
  by apply schedule_advance_rejected.
Qed.

(** X18. [POST /messages/schedule] always answers, it never posts to
    Slack, and it stores a record exactly when it answers 201.  With any other
    answer the records are as they were.  With 201, one record was added under
    an id that was free: it is pending, owned by the caller, due at the instant
    the body asked for, which lies after the clock; its channel is the one the
    body names and its channel name is the name under which Slack lists the
    first channel of that id, or ['Unknown'] where Slack gave none. *)
Theorem schedule_route_stores_exactly_on_201 (new_Date : string → option Date)
    (web : SlackWeb) (env : Env) (user : AuthUser) (body : ScheduleRoute.MessageRequest)
    (w : World) :
  let r := run env (ScheduleRoute.schedule new_Date web user body) w in
  ∃ reply,
    r.1 = Returned reply
    ∧ posts (calls r.2) = posts (calls w)
    ∧ (Http.status reply ≠ 201%nat → messages r.2 = messages w)
    ∧ (Http.status reply = 201%nat →
       ∃ channelId message scheduledFor when accessToken result channels conversation _id,
         ScheduleRoute.channelId body = Some channelId
         ∧ ScheduleRoute.message body = Some message
         ∧ ScheduleRoute.scheduledFor body = Some scheduledFor
         ∧ new_Date scheduledFor = Some when ∧ clock env < when
         ∧ conversations_list web accessToken = Resolved result
         ∧ list_channels result = Some channels
         ∧ List.find (λ c, bool_decide (conversation_id c = Some channelId)) channels
           = Some conversation
         ∧ messages w !! _id = None
         ∧ messages r.2
           = <[_id := ScheduledMessage.mk (auth_userId user) (auth_teamId user) channelId
                        (default "Unknown" (truthy_string (conversation_name conversation)))
                        message when Pending (clock env) (clock env) None None]>
               (messages w)
         ∧ Http.data reply
           = Some (ScheduleRoute.Build_Scheduled _id channelId
                     (default "Unknown" (truthy_string (conversation_name conversation)))
                     message when "scheduled")).
Proof.
  cbn zeta.
  destruct (schedule_checks new_Date env body)
    as [(channelId & message & scheduledFor & when & Hc & Hm & Hs & Hdate & Hfuture)|Hbody].
  2: { destruct (schedule_run_rejected new_Date web env user body w Hbody) as [error ->].
       eexists. split_and!; done. }
  rewrite (schedule_run _ _ _ _ _ _ _ _ _ _ Hc Hm Hs Hdate Hfuture).
  destruct (ensureValidToken_frame env w (auth_userId user)) as [Hmessages Hposts].
  destruct (run env (SlackService.ensureValidToken _) w) as [[accessToken|error] w1];
    cbn [snd] in Hmessages, Hposts; [|eexists; split_and!; done].
  unfold channels_of.
  destruct (conversations_list web accessToken) as [reason|[[] [channels|]]] eqn:Hlist;
    cbn [list_ok list_channels]; try (eexists; split_and!; done).
  rewrite find_as_channel.
  destruct (List.find _ channels) as [conversation|] eqn:Hfind;
    cbn [fmap option_fmap option_map]; [|eexists; split_and!; done].
  cbn zeta. destruct (ScheduledMessage.validate _); [|eexists; split_and!; done].
  eexists. split_and!; [done|done|done|]. intros _.
  apply truthy_string_Some in Hc as [Hc _], Hm as [Hm _], Hs as [Hs _].
  eexists channelId, message, scheduledFor, when, accessToken, _, channels, conversation, _.
  split_and!; try done.
  - cbn. rewrite Hmessages. apply not_elem_of_dom, is_fresh.
  - cbn. by rewrite Hmessages.
Qed.



(** X20. The route does not check the length of the text; the store
    does.  For a caller whose token has not expired, a body with the three
    fields, a time that is a date after the clock and a channel that Slack
    lists, the answer is 201 with the record stored when the text has at most
    4000 UTF-16 code units, and 500 with the message of the validation error
    and nothing stored when it has more. *)
Theorem schedule_route_length_limit (new_Date : string → option Date) (web : SlackWeb)
    (env : Env) (user : AuthUser) (w : World) (u : User)
    (channelId message scheduledFor : string) (when : Date)
    (result : ConversationsListResponse) (channels : list Conversation)
    (conversation : Conversation) :
  auth_userId user ≠ "" → auth_teamId user ≠ "" →
  users w !! auth_userId user = Some u →
  (SlackUser.tokenExpiresAt u = None
   ∨ ∃ t, SlackUser.tokenExpiresAt u = Some t ∧ clock env < t) →
  channelId ≠ "" → message ≠ "" → scheduledFor ≠ "" →
  new_Date scheduledFor = Some when → Date_valid when = true → clock env < when →
  conversations_list web (SlackUser.accessToken u) = Resolved result →
  list_ok result = true → list_channels result = Some channels →
  List.find (λ c, bool_decide (conversation_id c = Some channelId)) channels
  = Some conversation →
  let body := {| ScheduleRoute.channelId := Some channelId;
                 ScheduleRoute.message := Some message;
                 ScheduleRoute.scheduledFor := Some scheduledFor |} in
  let channelName := default "Unknown" (truthy_string (conversation_name conversation)) in
  let _id := fresh (dom (messages w)) in
  let d := ScheduledMessage.mk (auth_userId user) (auth_teamId user) channelId
             channelName message when Pending (clock env) (clock env) None None in
  run env (ScheduleRoute.schedule new_Date web user body) w =
  if (js_length message <=? 4000)%nat
  then (Returned (Http.mk 201 true
                    (Some (ScheduleRoute.Build_Scheduled _id channelId channelName
                             message when "scheduled"))
                    None (Some "Message scheduled successfully")),
        set_messages (<[_id := d]> (messages w)) w)
  else (Returned (Http.failure 500 (ScheduledMessage_invalid env d)), w).
Proof.
  intros HuserId HteamId Hu Hvalid HchannelId Hmessage HscheduledFor Hdate Hwhen Hfuture
    Hlist Hok Hchannels Hfind body channelName _id d.
  assert (∀ s, s ≠ "" → truthy_string (Some s) = Some s ∧ required s = true) as Htruthy.
  { intros s Hs. unfold required. cbn. by rewrite (proj2 (String.eqb_neq _ _) Hs). }
  rewrite (schedule_run new_Date web env user body w channelId message scheduledFor when);
    [|by apply Htruthy..|done|done].
  rewrite (ensureValidToken_not_expired env w _ u Hu Hvalid).
  unfold channels_of. rewrite Hlist, Hok, Hchannels, find_as_channel, Hfind.
  cbn [fmap option_fmap option_map]. cbn zeta.
  cbn [as_channel SlackChannel.name]. fold channelName. fold d.
  assert (ScheduledMessage.validate d = (js_length message <=? 4000)%nat) as ->; [|done].
  unfold ScheduledMessage.validate, ScheduledMessage.maxlength, d.
  cbn [ScheduledMessage.userId ScheduledMessage.teamId ScheduledMessage.channelId
       ScheduledMessage.channelName ScheduledMessage.message
       ScheduledMessage.scheduledFor].
  rewrite (proj2 (Htruthy _ HuserId)), (proj2 (Htruthy _ HteamId)),
    (proj2 (Htruthy _ HchannelId)), (proj2 (Htruthy _ Hmessage)), Hwhen.
  assert (required channelName = true) as ->.
  { unfold channelName, required.
    destruct (conversation_name conversation) as [n|]; [|done]. cbn.
    destruct (String.eqb n "") eqn:Hn; [done|]. cbn. by rewrite Hn. }
  cbn [andb]. apply andb_true_r.
Qed.

(** Ann schedules a text for the channel that Slack lists without a name;
    and a text of 4001 characters. *)
Lemma schedule_route_length_limit_witness :
  (run (Sample.slack_up 100)
     (ScheduleRoute.schedule Sample3.new_Date Sample3.two_channels Sample3.ann_token
        {| ScheduleRoute.channelId := Some "C2"; ScheduleRoute.message := Some "hello";
           ScheduleRoute.scheduledFor := Some "200" |})
     Sample.nothing_scheduled).1
  = Returned (Http.mk 201 true
                (Some (ScheduleRoute.Build_Scheduled (fresh (∅ : gset ObjectId)) "C2"
                         "Unknown" "hello" 200 "scheduled"))
                None (Some "Message scheduled successfully"))
  ∧ run (Sample.slack_up 100)
      (ScheduleRoute.schedule Sample3.new_Date Sample3.two_channels Sample3.ann_token
         {| ScheduleRoute.channelId := Some "C2";
            ScheduleRoute.message := Some Sample.long_body;
            ScheduleRoute.scheduledFor := Some "200" |})
      Sample.nothing_scheduled
    = (Returned (Http.failure 500 "ScheduledMessage validation failed"),
       Sample.nothing_scheduled).
Proof.
  split.
  - refine (f_equal fst
              (schedule_route_length_limit Sample3.new_Date Sample3.two_channels
                 (Sample.slack_up 100) Sample3.ann_token Sample.nothing_scheduled Sample.ann
                 "C2" "hello" "200" 200 _ _ _ _ _ eq_refl (or_introl eq_refl) _ _ _
                 eq_refl eq_refl _ eq_refl eq_refl eq_refl eq_refl));
      [discriminate..|cbn; lia].
  - refine (schedule_route_length_limit Sample3.new_Date Sample3.two_channels
              (Sample.slack_up 100) Sample3.ann_token Sample.nothing_scheduled Sample.ann
              "C2" Sample.long_body "200" 200 _ _ _ _ _ eq_refl (or_introl eq_refl) _ _ _
              eq_refl eq_refl _ eq_refl eq_refl eq_refl eq_refl);
      [discriminate| discriminate|discriminate|by vm_compute|discriminate|cbn; lia].
Defined.

Lemma as_channel_named conversation : SlackChannel.name (as_channel conversation) ≠ "".
Proof.
  cbn. destruct (conversation_name conversation) as [n|]; [|done]. cbn.
  destruct (String.eqb_spec n ""); done.
Qed.

(** X21. [GET /slack/channels] changes no record and posts nothing.  It
    answers either 500 with the one text ['Failed to fetch channels'], or 200
    with the channels of the list Slack gave for the caller's token: as many,
    in the same order, under the same ids, and each with a name that is not
    empty. *)
Theorem channels_route_lists_what_slack_lists (web : SlackWeb) (env : Env)
    (user : AuthUser) (w : World) :
  let r := run env (SlackReadRoutes.channels web user) w in
  messages r.2 = messages w
  ∧ posts (calls r.2) = posts (calls w)
  ∧ (r.1 = Returned (Http.failure 500 "Failed to fetch channels")
     ∨ ∃ channels accessToken result conversations,
         r.1 = Returned (Http.mk 200 true (Some channels) None None)
         ∧ (run env (SlackService.ensureValidToken (auth_userId user)) w).1
           = Returned accessToken
         ∧ conversations_list web accessToken = Resolved result
         ∧ list_channels result = Some conversations
         ∧ SlackChannel.id <$> channels = conversation_id <$> conversations
         ∧ Forall (λ ch, SlackChannel.name ch ≠ "") channels).
Proof.
  cbn zeta. unfold SlackReadRoutes.channels.
  rewrite run_try_catch, run_bind.
  destruct (ensureValidToken_frame env w (auth_userId user)) as [Hmessages Hposts].
  destruct (run env (SlackService.ensureValidToken _) w) as [[accessToken|error] w1];
    cbn [snd] in Hmessages, Hposts; [|split_and!; auto].
  rewrite run_bind, getUserChannels_run. unfold channels_of.
  destruct (conversations_list web accessToken) as [reason|[[] [conversations|]]] eqn:Hlist;
    cbn [list_ok list_channels]; try (split_and!; auto; done).
  split_and!; [done|done|]. right.
  eexists _, accessToken, _, conversations. split_and!; try done.
  - rewrite <-list_fmap_compose. by apply list_fmap_ext.
  - apply Forall_fmap, Forall_true. intros c. apply as_channel_named.
Qed.

(** X22. [GET /slack/connection-status] answers 200 with [success: true]
    whatever happens; it changes no record and posts nothing.  It reports
    [connected: true] exactly when the caller's token is valid, or could be
    refreshed, and [users.info] answered for it with a user; otherwise it
    reports [connected: false] together with the text of the failure. *)
Theorem connection_status_always_succeeds (web : SlackWeb) (env : Env)
    (user : AuthUser) (w : World) :
  let r := run env (SlackReadRoutes.connectionStatus web user) w in
  ∃ d, r.1 = Returned (Http.mk 200 true (Some d) None None)
       ∧ SlackReadRoutes.lastChecked d = clock env
       ∧ messages r.2 = messages w
       ∧ posts (calls r.2) = posts (calls w)
       ∧ (SlackReadRoutes.connected d = true ↔
          ∃ accessToken info,
            (run env (SlackService.ensureValidToken (auth_userId user)) w).1
            = Returned accessToken
            ∧ users_info web accessToken (auth_userId user)
              = Resolved {| info_ok := true; info_user := Some info |})
       ∧ (SlackReadRoutes.connected d = false →
          ∃ reason, SlackReadRoutes.status_error d = Some reason).
Proof.
  cbn zeta. unfold SlackReadRoutes.connectionStatus.
  rewrite run_try_catch, run_bind.
  destruct (ensureValidToken_frame env w (auth_userId user)) as [Hmessages Hposts].
  destruct (run env (SlackService.ensureValidToken _) w) as [[accessToken|error] w1];
    cbn [snd fst] in *.
  - rewrite run_bind, getUserInfo_run.
    destruct (users_info web accessToken (auth_userId user)) as [reason|[[] [info|]]]
      eqn:Hinfo;
      cbn; eexists; (split; [reflexivity|]); cbn; split_and!; try done; eauto;
      try (split; [done|]; intros (? & ? & [= <-] & Heq); congruence).
    split; [|done]. intros _. by exists accessToken, info.
  - cbn. eexists. split; [reflexivity|]. cbn. split_and!; try done; eauto.
    split; [done|]. by intros (? & ? & ? & ?).
Qed.
